(** * lbex: the external load-balancer controller (controller.go)

    A shallow embedding of the reconciliation core of [controller.go]:
    the three sync handlers ([syncNodes], [syncServices], [syncEndpoints])
    and the resolver ([getServiceEndpoints], [getEndpoints], [getService],
    [getServices]) that joins service and endpoint objects into the
    [Service] routing model.

    Conventions.
    - Go's [int32] and [int] are [Z]; the one narrowing conversion of the
      source, [int32(servicePortInt)], is written out as [int32].
    - A Go [error] is [option string]: [None] is [nil].
    - A [cache.Store] is an interface; it is a record of its two methods
      the controller calls, [GetByKey] and [List].  Each store is filled by
      the informer of one resource kind, so a store is typed by the kind of
      object it holds.
    - The packages [annotations], [nginx] and the helper file of package
      [main] are not part of the two source files.  What the controller
      calls from them is gathered in the class [Helpers]; every definition
      and theorem is generic in it.
    - [glog] calls have no effect on control flow and are left out.
    - The second source file is an earlier revision of [controller.go];
      what differs in it and matters below is in the module [earlier]. *)

From Stdlib Require Import ZArith Lia Ascii.
From stdpp Require Import base list strings sorting pretty.

Open Scope Z_scope.

(** ** Kubernetes API objects, as far as the controller reads them *)

Definition error := option string.

Module intstr.
(** [intstr.IntOrString]: [Type] selects which of the two values is used. *)
Inductive Kind := Int | String.

Record IntOrString := {
  Type_ : Kind;
  IntVal : Z;
  StrVal : string;
}.
End intstr.

Module v1.
Definition Protocol := string.
Definition ProtocolTCP : Protocol := "TCP".
Definition ProtocolUDP : Protocol := "UDP".

Definition ServiceType := string.
Definition ServiceTypeLoadBalancer : ServiceType := "LoadBalancer".

Record ServicePort := {
  sp_Name : string;
  sp_Protocol : Protocol;
  sp_Port : Z;
  sp_TargetPort : intstr.IntOrString;
}.

Record Service := {
  svc_Name : string;
  svc_Namespace : string;
  svc_Annotations : list (string * string);
  svc_Type : ServiceType;
  svc_Ports : list ServicePort;
}.

Record EndpointAddress := { IP : string }.

Record EndpointPort := {
  ep_Name : string;
  ep_Port : Z;
  ep_Protocol : Protocol;
}.

Record EndpointSubset := {
  Addresses : list EndpointAddress;
  Ports : list EndpointPort;
}.

Record Endpoints := {
  eps_Name : string;
  eps_Namespace : string;
  Subsets : list EndpointSubset;
}.

(** The zero value of [Endpoints], the initial value of a named result. *)
Definition Endpoints_zero : Endpoints :=
  {| eps_Name := ""; eps_Namespace := ""; Subsets := [] |}.

Record Node := {
  node_Name : string;
  node_Addresses : list (string * string);
  node_Unschedulable : bool;
}.
End v1.

(** ** The routing model *)

(** [Service] of package [main]: one load-balancer rule. *)
Record Service := {
  Name : string;
  Ep : list string;
  FrontendPort : Z;
  BackendPort : Z;
  Host : string;
  Algorithm : string;
}.

(** The zero value of the fields a composite literal does not set is the
    empty string (resp. [0]). *)
Definition set_Host (s : Service) (v : string) : Service :=
  {| Name := Name s; Ep := Ep s; FrontendPort := FrontendPort s;
     BackendPort := BackendPort s; Host := v; Algorithm := Algorithm s |}.

Definition set_Algorithm (s : Service) (v : string) : Service :=
  {| Name := Name s; Ep := Ep s; FrontendPort := FrontendPort s;
     BackendPort := BackendPort s; Host := Host s; Algorithm := v |}.

Definition set_FrontendPort (s : Service) (v : Z) : Service :=
  {| Name := Name s; Ep := Ep s; FrontendPort := v;
     BackendPort := BackendPort s; Host := Host s; Algorithm := Algorithm s |}.

Module nginx.
(** The two package variables, with the values the earlier revision of
    the controller declares for them ([supportedAlgorithms],
    [defaultAlgorithm]). *)
Definition SupportedAlgorithms : list string := ["roundrobin"; "leastconn"].
Definition DefaultAlgorithm : string := "roundrobin".

Record Node := {
  Name : string;
  Hostname : string;
  ExternalIP : string;
  InternalIP : string;
  Active : bool;
}.

Inductive CfgType := StreamCfg | LocalCfg.

Record ServiceSpec := {
  spec_Key : string;
  spec_Service : v1.Service;
}.

(** [nginx.Configurator], as far as a sync handler reads its answers:
    the two node operations return the keys of the affected services. *)
Record Configurator := {
  DeleteNode : string → list string;
  AddOrUpdateNode : Node → list string;
}.
End nginx.

(** ** Stores and queues *)

(** The three outcomes the callers of [GetByKey] distinguish, in the order
    they test them: [err != nil], then [!exists], then the object. *)
Inductive GetResult (A : Type) :=
  | GetErr (e : string)
  | GetMissing
  | GetFound (obj : A).
Arguments GetErr {A} e.
Arguments GetMissing {A}.
Arguments GetFound {A} obj.

Record Store (A : Type) := {
  GetByKey : string → GetResult A;
  List : list A;
}.
Arguments GetByKey {A} _ _.
Arguments List {A} _.

Record TaskQueue := { IsShuttingDown : bool }.

Record NodeAddress := {
  addr_Hostname : string;
  addr_ExternalIP : string;
  addr_InternalIP : string;
}.

(** What the controller calls outside the two source files. *)
Class Helpers := {
  ValidateServiceObject : v1.Service → bool;
  GetServiceName : v1.Service → string * error;
  GetServiceNamespace : v1.Service → string * error;
  GetServicePortTargetPortInt : v1.ServicePort → Z * error;
  GetServiceNameForLBRule : string → Z → string;
  GetHost : v1.Service → string * bool;
  GetAlgorithm : v1.Service → string * bool;
  ValidateServiceObjectType : v1.Service → error;
  ValidateNodeObjectType : v1.Node → error;
  GetNodeAddress : v1.Node → NodeAddress * error;
  IsNodeScheduleable : v1.Node → bool;
}.

Record lbExController := {
  endpointStore : Store v1.Endpoints;
  endpointsQueue : TaskQueue;
  servicesStore : Store v1.Service;
  servicesQueue : TaskQueue;
  nodesStore : Store v1.Node;
  nodesQueue : TaskQueue;
  service : string;
  cfgtor : nginx.Configurator;
}.

(** [int32(x)] for an [int] [x]: two's complement wrap-around. *)
Definition int32 (x : Z) : Z := (x + 2 ^ 31) `mod` 2 ^ 32 - 2 ^ 31.

(** [fmt.Sprintf("%v:%v", ip, port)]. *)
Definition Sprintf_addr (ip : string) (port : Z) : string :=
  ip +:+ ":" +:+ pretty port.

(** ** Sorting *)

(** Modelled from the spec: [serviceByName] and its [Less] method are
    declared outside the two source files.  The output lists are "sorted by
    rule name", so [Less(i, j)] compares the [Name] fields, as Go compares
    strings: byte by byte. *)
Definition serviceByName_Less (a b : Service) : bool :=
  String.ltb (Name a) (Name b).

(** [y] may follow [x] in sorted data: [y] is not [Less] than [x]. *)
Definition notLess {A} (Less : A → A → bool) : relation A :=
  λ x y, Less y x = false.

#[global] Instance notLess_dec {A} (Less : A → A → bool) :
  RelDecision (notLess Less).
Proof. intros x y. unfold notLess. apply _. Defined.

(** [sort.Sort(data)]: Go's library sort.  It is not stable; its contract
    is that the result is a permutation of the input in which no element is
    [Less] than an earlier one.  A merge sort stands for it, and the
    theorems below use nothing but that contract ([sort_Sort_Permutation],
    [sort_Sort_Sorted]). *)
Definition sort_Sort {A} (Less : A → A → bool) (data : list A) : list A :=
  merge_sort (notLess Less) data.

Section Resolver.
Context `{Helpers}.
Variable lbex : lbExController.

(** *** getServiceEndpoints *)

(** The loop over [endpointStore.List()]; [endpoints] is the named
    result, overwritten at every iteration. *)
Fixpoint getServiceEndpoints_loop (service : v1.Service)
    (l : list v1.Endpoints) (endpoints : v1.Endpoints)
    : v1.Endpoints * error :=
  match l with
  | [] =>
      (endpoints,
       Some ("could not find endpoints for service: " +:+ v1.svc_Name service))
  | ep :: rest =>
      let endpoints := ep in
      if String.eqb (v1.svc_Name service) (v1.eps_Name endpoints)
         && String.eqb (v1.svc_Namespace service) (v1.eps_Namespace endpoints)
      then (endpoints, None)
      else getServiceEndpoints_loop service rest endpoints
  end.

Definition getServiceEndpoints (service : v1.Service) : v1.Endpoints * error :=
  getServiceEndpoints_loop service (List (endpointStore lbex)) v1.Endpoints_zero.

(** *** getEndpoints *)

(** The [switch] on the target port's type, for one subset port entry.
    [None] is the [continue] of the [Int] case when the helper fails;
    [Some t] is the value of [targetPort] after the switch. *)
Definition targetPort_switch (servicePort : v1.ServicePort)
    (epPort : v1.EndpointPort) : option Z :=
  let targetPort := 0 in
  match intstr.Type_ (v1.sp_TargetPort servicePort) with
  | intstr.Int =>
      match GetServicePortTargetPortInt servicePort with
      | (_, Some _) => None
      | (servicePortInt, None) =>
          if v1.ep_Port epPort =? int32 servicePortInt
          then Some servicePortInt
          else Some targetPort
      end
  | intstr.String =>
      if String.eqb (v1.ep_Name epPort)
                    (intstr.StrVal (v1.sp_TargetPort servicePort))
      then Some (v1.ep_Port epPort)
      else Some targetPort
  end.

(** The body of the loop over [subsets.Ports]. *)
Definition getEndpoints_port (servicePort : v1.ServicePort)
    (subsets : v1.EndpointSubset) (endpoints : list string)
    (epPort : v1.EndpointPort) : list string :=
  match targetPort_switch servicePort epPort with
  | None => endpoints
  | Some targetPort =>
      if targetPort =? 0 then endpoints
      else
        fold_left
          (λ endpoints epAddress,
             endpoints ++ [Sprintf_addr (v1.IP epAddress) targetPort])
          (v1.Addresses subsets) endpoints
  end.

(** The body of the loop over [svcEndpoints.Subsets]. *)
Definition getEndpoints_subset (servicePort : v1.ServicePort)
    (endpoints : list string) (subsets : v1.EndpointSubset) : list string :=
  fold_left (getEndpoints_port servicePort subsets) (v1.Ports subsets) endpoints.

Definition getEndpoints (service : v1.Service) (servicePort : v1.ServicePort)
    : list string :=
  match getServiceEndpoints service with
  | (_, Some _) => []
  | (svcEndpoints, None) =>
      fold_left (getEndpoints_subset servicePort) (v1.Subsets svcEndpoints) []
  end.
(** *** getService *)

(** The loop over [nginx.SupportedAlgorithms], with its [break]. *)
Fixpoint getService_algorithm (val : string) (supported : list string)
    (newSvc : Service) : Service :=
  match supported with
  | [] => newSvc
  | current :: rest =>
      if String.eqb val current then set_Algorithm newSvc val
      else getService_algorithm val rest newSvc
  end.

(** The [Service] built for one service port with endpoints [ep]. *)
Definition getService_newSvc (service : v1.Service) (serviceName : string)
    (servicePort : v1.ServicePort) (ep : list string) : Service :=
  let '(backendPort, _) := GetServicePortTargetPortInt servicePort in
  let newSvc :=
    {| Name := GetServiceNameForLBRule serviceName (v1.sp_Port servicePort);
       Ep := ep;
       BackendPort := backendPort;
       FrontendPort := 0; Host := ""; Algorithm := "" |} in
  let newSvc :=
    match GetHost service with
    | (val, true) => set_Host newSvc val
    | (_, false) => newSvc
    end in
  let newSvc :=
    match GetAlgorithm service with
    | (val, true) => getService_algorithm val nginx.SupportedAlgorithms newSvc
    | (_, false) => set_Algorithm newSvc nginx.DefaultAlgorithm
    end in
  set_FrontendPort newSvc (v1.sp_Port servicePort).

(** The body of the loop over [service.Spec.Ports]; the state is the pair
    of named results [(tcpServices, udpServices)]. *)
Definition getService_port (service : v1.Service) (serviceName : string)
    (acc : list Service * list Service) (servicePort : v1.ServicePort)
    : list Service * list Service :=
  let '(tcpServices, udpServices) := acc in
  let ep := getEndpoints service servicePort in
  if (length ep =? 0)%nat then acc
  else
    let newSvc := getService_newSvc service serviceName servicePort ep in
    if String.eqb (v1.sp_Protocol servicePort) v1.ProtocolUDP
    then (tcpServices, udpServices ++ [newSvc])
    else (tcpServices ++ [newSvc], udpServices).

Definition getService (key : string) : list Service * list Service :=
  match GetByKey (servicesStore lbex) key with
  | GetErr _ | GetMissing => ([], [])
  | GetFound obj =>
      if negb (ValidateServiceObject obj) then ([], [])
      else
        let '(serviceName, _) := GetServiceName obj in
        if negb (String.eqb (service lbex) "")
           && negb (String.eqb (service lbex) serviceName)
        then ([], [])
        else
          let service := obj in
          let '(tcpServices, udpServices) :=
            fold_left (getService_port service serviceName)
                      (v1.svc_Ports service) ([], []) in
          (sort_Sort serviceByName_Less tcpServices,
           sort_Sort serviceByName_Less udpServices)
  end.

(** *** getServices *)

(** The body of the loop over [servicesStore.List()]. *)
Definition getServices_obj (acc : list Service * list Service)
    (obj : v1.Service) : list Service * list Service :=
  let '(tcpServices, udpServices) := acc in
  if negb (ValidateServiceObject obj) then acc
  else
    match GetServiceNamespace obj with
    | (_, Some _) => acc
    | (namespace, None) =>
        match GetServiceName obj with
        | (_, Some _) => acc
        | (serviceName, None) =>
            let '(svcTCPServices, svcUDPServices) :=
              getService (namespace +:+ "/" +:+ serviceName) in
            (tcpServices ++ svcTCPServices, udpServices ++ svcUDPServices)
        end
    end.

Definition getServices : list Service * list Service :=
  let objects := List (servicesStore lbex) in
  let '(tcpServices, udpServices) := fold_left getServices_obj objects ([], []) in
  (sort_Sort serviceByName_Less tcpServices,
   sort_Sort serviceByName_Less udpServices).
End Resolver.

(** ** The sync handlers *)

(** What a sync handler does to its collaborators: the calls it makes on
    the Configurator and on the service queue, in order. *)
Inductive Call :=
  | Cfg_DeleteNode (key : string)
  | Cfg_AddOrUpdateNode (node : nginx.Node)
  | Cfg_DeleteConfiguration (filename : string) (cfgType : nginx.CfgType)
  | Cfg_AddOrUpdateService (filename : string) (svcSpec : nginx.ServiceSpec)
  | ServicesQueue_Enqueue (key : string).

(** [strings.Replace(s, "/", "-", -1)]: old and new are one byte long, so
    every "/" byte of [s] becomes "-". *)
Fixpoint strings_Replace_slash (s : string) : string :=
  match s with
  | EmptyString => EmptyString
  | String c s' =>
      String (if Ascii.eqb c "/" then "-"%char else c) (strings_Replace_slash s')
  end.

Section Sync.
Context `{Helpers}.
Variable lbex : lbExController.

(** A handler returns its [error] and the calls it made.  The three
    definitions of this section are the handlers at a queue item that is a
    string, the key; the handlers at an arbitrary queue item, with the type
    assertion [obj.(string)] and its failing branch, follow the section
    ([syncNodes_obj], [syncServices_obj], [syncEndpoints_obj]). *)
Definition syncNodes (key : string) : error * list Call :=
  if IsShuttingDown (nodesQueue lbex) then (None, [])
  else
    match GetByKey (nodesStore lbex) key with
    | GetErr err => (Some err, [])
    | GetMissing =>
        let affectedServices := nginx.DeleteNode (cfgtor lbex) key in
        (None,
         Cfg_DeleteNode key :: map ServicesQueue_Enqueue affectedServices)
    | GetFound storeObj =>
        match ValidateNodeObjectType storeObj with
        | Some _ => (None, [])
        | None =>
            match GetNodeAddress storeObj with
            | (_, Some _) => (None, [])
            | (addrs, None) =>
                let active := IsNodeScheduleable storeObj in
                let node :=
                  {| nginx.Name := key;
                     nginx.Hostname := addr_Hostname addrs;
                     nginx.ExternalIP := addr_ExternalIP addrs;
                     nginx.InternalIP := addr_InternalIP addrs;
                     nginx.Active := active |} in
                let affectedServices :=
                  nginx.AddOrUpdateNode (cfgtor lbex) node in
                (None,
                 Cfg_AddOrUpdateNode node
                   :: map ServicesQueue_Enqueue affectedServices)
            end
        end
    end.

Definition syncServices (key : string) : error * list Call :=
  if IsShuttingDown (servicesQueue lbex) then (None, [])
  else
    let filename := strings_Replace_slash key in
    match GetByKey (servicesStore lbex) key with
    | GetErr err => (Some err, [])
    | GetMissing => (None, [Cfg_DeleteConfiguration filename nginx.StreamCfg])
    | GetFound storeObj =>
        match ValidateServiceObjectType storeObj with
        | Some _ => (None, [])
        | None =>
            let '(tcpSvc, udpSvc) := getService lbex key in
            if (length udpSvc =? 0)%nat && (length tcpSvc =? 0)%nat
            then (None, [])
            else
              let svcSpec :=
                {| nginx.spec_Key := key; nginx.spec_Service := storeObj |} in
              (None, [Cfg_AddOrUpdateService filename svcSpec])
        end
    end.

Definition syncEndpoints (key : string) : error * list Call :=
  if IsShuttingDown (endpointsQueue lbex) then (None, [])
  else
    match GetByKey (endpointStore lbex) key with
    | GetErr err => (Some err, [])
    | GetMissing => (None, [])
    | GetFound _ =>
        let '(tcpSvc, udpSvc) := getService lbex key in
        if (length udpSvc =? 0)%nat && (length tcpSvc =? 0)%nat
        then (None, [])
        else (None, [])
    end.
End Sync.

(** A queue item, an [interface{}] value: a string, or a value of another
    dynamic type. *)
Inductive QueueItem :=
  | ItemString (key : string)
  | ItemOther.

Section SyncItems.
Context `{Helpers}.
Variable lbex : lbExController.

(** The handlers as the queue calls them: the shutdown test, then the type
    assertion [key, ok := obj.(string)], whose failure returns an error
    before any lookup, then the rest of the handler at the key. *)
Definition syncNodes_obj (obj : QueueItem) : error * list Call :=
  if IsShuttingDown (nodesQueue lbex) then (None, [])
  else
    match obj with
    | ItemOther => (Some "type assertion faild for key string", [])
    | ItemString key => syncNodes lbex key
    end.

Definition syncServices_obj (obj : QueueItem) : error * list Call :=
  if IsShuttingDown (servicesQueue lbex) then (None, [])
  else
    match obj with
    | ItemOther =>
        (Some "syncServices: type assertion faild for key string", [])
    | ItemString key => syncServices lbex key
    end.

Definition syncEndpoints_obj (obj : QueueItem) : error * list Call :=
  if IsShuttingDown (endpointsQueue lbex) then (None, [])
  else
    match obj with
    | ItemOther =>
        (Some "syncEndpoints: key string type assertion failed", [])
    | ItemString key => syncEndpoints lbex key
    end.
End SyncItems.

(** ** A reference instance of the helpers

    The helpers are called by the controller but declared outside the two
    source files.  The instance below is used for the worked examples; no
    general theorem depends on it. *)
Module helpers.

(** Modelled from the spec: the annotations package is missing.  The spec
    describes it as the "pure extraction of eligibility/host/algorithm from
    a service object's annotation map": a class marker, an optional
    virtual-host value and an optional algorithm value.  The spec does not
    name the annotation keys; the strings below stand for them. *)
Definition LBEXClassKey : string := "kubernetes.io/loadbalancer-class".
Definition LBEXClassKeyValue : string := "loadbalancer-lbex".
Definition LBEXHostKey : string := "loadbalancer.lbex/host".
Definition LBEXAlgorithmKey : string := "loadbalancer.lbex/algorithm".

(** Modelled from the spec: the lookup [m[key]] of the missing annotations
    package, in its comma-ok form, on an annotation map given as a list of
    bindings. *)
Fixpoint annotation (key : string) (m : list (string * string))
    : string * bool :=
  match m with
  | [] => ("", false)
  | (k, v) :: rest => if String.eqb k key then (v, true) else annotation key rest
  end.

(** Modelled from the spec: [annotations.IsValid] is missing; a service is
    eligible when it carries the "class/eligibility marker". *)
Definition IsValid (service : v1.Service) : bool :=
  match annotation LBEXClassKey (v1.svc_Annotations service) with
  | (val, true) => String.eqb val LBEXClassKeyValue
  | (_, false) => false
  end.

(** Modelled from the spec: the helper file of package main is missing.
    Resolver steps 1 and 2: "reject services of the orchestrator's native
    external-load-balancer type", "reject services lacking a recognized
    class/eligibility annotation". *)
Definition ValidateServiceObject (service : v1.Service) : bool :=
  negb (String.eqb (v1.svc_Type service) v1.ServiceTypeLoadBalancer)
  && IsValid service.

(** Modelled from the spec: the rule name is a "stable identifier
    combining namespace, service name, and frontend port"; the controller
    passes the service name and the port. *)
Definition GetServiceNameForLBRule (serviceName : string) (servicePort : Z)
    : string :=
  serviceName +:+ "-" +:+ pretty servicePort.

(** Modelled from the spec: "backend port = resolved target port", the
    numeric value of the service port's target. *)
Definition GetServicePortTargetPortInt (servicePort : v1.ServicePort)
    : Z * error :=
  (intstr.IntVal (v1.sp_TargetPort servicePort), None).

(** Modelled from the spec: NodeInfo carries "hostname, external address,
    internal address, schedulable flag". *)
Definition GetNodeAddress (node : v1.Node) : NodeAddress * error :=
  let get k := fst (annotation k (v1.node_Addresses node)) in
  ({| addr_Hostname := get "Hostname";
      addr_ExternalIP := get "ExternalIP";
      addr_InternalIP := get "InternalIP" |}, None).

Definition reference : Helpers :=
  Build_Helpers
    ValidateServiceObject
    (λ service, (v1.svc_Name service, None))
    (λ service, (v1.svc_Namespace service, None))
    GetServicePortTargetPortInt
    GetServiceNameForLBRule
    (λ service, annotation LBEXHostKey (v1.svc_Annotations service))
    (λ service, annotation LBEXAlgorithmKey (v1.svc_Annotations service))
    (λ _, None)
    (λ _, None)
    GetNodeAddress
    (λ node, negb (v1.node_Unschedulable node)).
End helpers.

(** ** The earlier revision of the controller

    The second source file is an earlier revision of [controller.go].  Its
    [getEndpoints] has the same two loops around a switch that differs in
    the numeric case: the resolved port is the entry's own port.  Its
    [getServices] builds each [Service] record with the statements of
    [getService] above, the algorithm selection included.
    [getTargetPort] is declared outside the file. *)
Module earlier.
Section Revision.
Variable getTargetPort : v1.ServicePort → Z.

Definition targetPort_switch (servicePort : v1.ServicePort)
    (epPort : v1.EndpointPort) : Z :=
  let targetPort := 0 in
  match intstr.Type_ (v1.sp_TargetPort servicePort) with
  | intstr.Int =>
      if v1.ep_Port epPort =? int32 (getTargetPort servicePort)
      then v1.ep_Port epPort
      else targetPort
  | intstr.String =>
      if String.eqb (v1.ep_Name epPort)
                    (intstr.StrVal (v1.sp_TargetPort servicePort))
      then v1.ep_Port epPort
      else targetPort
  end.

Definition getEndpoints_port (servicePort : v1.ServicePort)
    (subsets : v1.EndpointSubset) (endpoints : list string)
    (epPort : v1.EndpointPort) : list string :=
  let targetPort := targetPort_switch servicePort epPort in
  if targetPort =? 0 then endpoints
  else
    fold_left
      (λ endpoints epAddress,
         endpoints ++ [Sprintf_addr (v1.IP epAddress) targetPort])
      (v1.Addresses subsets) endpoints.
End Revision.

(** In this revision the objects of a store are read through type
    assertions: an object is an [interface{}] value whose dynamic type is
    one of the API types, or something else. *)
Inductive Obj :=
  | ObjService (service : v1.Service)
  | ObjEndpoints (endpoints : v1.Endpoints)
  | ObjOther.

(** A call returns, or panics: a type assertion [x.(T)] without the
    comma-ok form panics when the dynamic type of [x] is not [T]. *)
Inductive Outcome (A : Type) :=
  | Return (a : A)
  | Panic.
Arguments Return {A} a.
Arguments Panic {A}.

(** A loop whose body may panic. *)
Fixpoint foldM {A B} (body : A → B → Outcome A) (l : list B) (a : A)
    : Outcome A :=
  match l with
  | [] => Return a
  | b :: rest =>
      match body a b with
      | Panic => Panic
      | Return a' => foldM body rest a'
      end
  end.

Record lbExController := {
  endpointStore : Store Obj;
  endpointsQueue : TaskQueue;
  servicesStore : Store Obj;
  servicesQueue : TaskQueue;
  service : string;
}.

(** What this revision calls outside the file. *)
Class Helpers := {
  getTargetPort : v1.ServicePort → Z;
  getServiceNameForLBRule : v1.Service → Z → string;
  IsValid : v1.Service → bool;
  GetHost : v1.Service → string * bool;
  GetAlgorithm : v1.Service → string * bool;
}.

Section Services.
Context `{Helpers}.
Variable lbex : lbExController.

(** The loop of [getServiceEndpoints]; it ranges over
    [servicesStore.List()] and asserts every object to be an Endpoints
    object. *)
Fixpoint getServiceEndpoints_loop (service : v1.Service) (l : list Obj)
    (endpoints : v1.Endpoints) : Outcome (v1.Endpoints * error) :=
  match l with
  | [] =>
      Return
        (endpoints,
         Some ("could not find endpoints for service: " +:+ v1.svc_Name service))
  | svc :: rest =>
      match svc with
      | ObjEndpoints e =>
          let endpoints := e in
          if String.eqb (v1.svc_Name service) (v1.eps_Name endpoints)
             && String.eqb (v1.svc_Namespace service)
                           (v1.eps_Namespace endpoints)
          then Return (endpoints, None)
          else getServiceEndpoints_loop service rest endpoints
      | _ => Panic
      end
  end.

Definition getServiceEndpoints (service : v1.Service)
    : Outcome (v1.Endpoints * error) :=
  getServiceEndpoints_loop service (List (servicesStore lbex))
    v1.Endpoints_zero.

Definition getEndpoints_subset (servicePort : v1.ServicePort)
    (endpoints : list string) (subsets : v1.EndpointSubset) : list string :=
  fold_left (getEndpoints_port getTargetPort servicePort subsets)
            (v1.Ports subsets) endpoints.

Definition getEndpoints (service : v1.Service) (servicePort : v1.ServicePort)
    : Outcome (list string) :=
  match getServiceEndpoints service with
  | Panic => Panic
  | Return (_, Some _) => Return []
  | Return (svcEndpoints, None) =>
      Return
        (fold_left (getEndpoints_subset servicePort)
                   (v1.Subsets svcEndpoints) [])
  end.

(** The [Service] built for one service port with endpoints [ep]. *)
Definition getServices_newSvc (service : v1.Service)
    (servicePort : v1.ServicePort) (ep : list string) : Service :=
  let newSvc :=
    {| Name := getServiceNameForLBRule service (v1.sp_Port servicePort);
       Ep := ep;
       BackendPort := getTargetPort servicePort;
       FrontendPort := 0; Host := ""; Algorithm := "" |} in
  let newSvc :=
    match GetHost service with
    | (val, true) => set_Host newSvc val
    | (_, false) => newSvc
    end in
  let newSvc :=
    match GetAlgorithm service with
    | (val, true) => getService_algorithm val nginx.SupportedAlgorithms newSvc
    | (_, false) => set_Algorithm newSvc nginx.DefaultAlgorithm
    end in
  set_FrontendPort newSvc (v1.sp_Port servicePort).

(** The body of the loop over [service.Spec.Ports]. *)
Definition getServices_port (service : v1.Service)
    (acc : list Service * list Service) (servicePort : v1.ServicePort)
    : Outcome (list Service * list Service) :=
  let '(tcpServices, udpServices) := acc in
  if negb (String.eqb (earlier.service lbex) "")
     && negb (String.eqb (earlier.service lbex) (v1.svc_Name service))
  then Return acc
  else
    match getEndpoints service servicePort with
    | Panic => Panic
    | Return ep =>
        if (length ep =? 0)%nat then Return acc
        else
          let newSvc := getServices_newSvc service servicePort ep in
          if String.eqb (v1.sp_Protocol servicePort) v1.ProtocolUDP
          then Return (tcpServices, udpServices ++ [newSvc])
          else Return (tcpServices ++ [newSvc], udpServices)
    end.

(** The body of the loop over [servicesStore.List()]. *)
Definition getServices_obj (acc : list Service * list Service) (obj : Obj)
    : Outcome (list Service * list Service) :=
  match obj with
  | ObjService service =>
      if String.eqb (v1.svc_Type service) v1.ServiceTypeLoadBalancer
      then Return acc
      else if negb (IsValid service) then Return acc
      else foldM (getServices_port service) (v1.svc_Ports service) acc
  | _ => Return acc
  end.

Definition getServices : Outcome (list Service * list Service) :=
  let objects := List (servicesStore lbex) in
  match foldM getServices_obj objects ([], []) with
  | Panic => Panic
  | Return (tcpServices, udpServices) =>
      Return (sort_Sort serviceByName_Less tcpServices,
              sort_Sort serviceByName_Less udpServices)
  end.

(** The handlers of this revision call nothing but [getServices]; what
    they find goes to the log. *)
Definition syncServices (key : string) : Outcome error :=
  if IsShuttingDown (servicesQueue lbex) then Return None
  else
    match GetByKey (servicesStore lbex) key with
    | GetErr err => Return (Some err)
    | GetFound storeObj =>
        match getServices with
        | Panic => Panic
        | Return _ => Return None
        end
    | GetMissing => Return None
    end.

Definition syncEndpoints (key : string) : Outcome error :=
  if IsShuttingDown (endpointsQueue lbex) then Return None
  else
    match GetByKey (endpointStore lbex) key with
    | GetErr err => Return (Some err)
    | GetFound storeObj =>
        match storeObj with
        | ObjEndpoints endpoints =>
            if String.eqb (v1.eps_Namespace endpoints) "kube-system"
            then Return None
            else
              match getServices with
              | Panic => Panic
              | Return _ => Return None
              end
        | _ => Return None
        end
    | GetMissing => Return None
    end.
End Services.

(** The dynamic type of an object is [*api.Service]. *)
Definition is_service (obj : Obj) : Prop :=
  match obj with
  | ObjService _ => True
  | _ => False
  end.

(** A listed object for which [getServices] reaches [getEndpoints]: a
    service that is not of type LoadBalancer, carries the class
    annotation, is in scope and declares a port. *)
Definition candidate `{Helpers} (lbex : lbExController) (obj : Obj) : Prop :=
  match obj with
  | ObjService service =>
      v1.svc_Type service ≠ v1.ServiceTypeLoadBalancer
      ∧ IsValid service = true
      ∧ (earlier.service lbex = ""
         ∨ earlier.service lbex = v1.svc_Name service)
      ∧ v1.svc_Ports service ≠ []
  | _ => False
  end.

#[global] Instance candidate_dec `{Helpers} (lbex : lbExController)
    (obj : Obj) : Decision (candidate lbex obj).
Proof. destruct obj; simpl; apply _. Defined.
End earlier.

(** ** Notions used to state the properties *)

(** A subset port entry contributes addresses for a service port, with
    resolved target port [targetPort]: the switch of [getEndpoints] sets
    [targetPort], and the test [targetPort == 0] lets it through. *)
Definition contributes `{Helpers} (servicePort : v1.ServicePort)
    (epPort : v1.EndpointPort) (targetPort : Z) : Prop :=
  targetPort_switch servicePort epPort = Some targetPort ∧ targetPort ≠ 0.

(** The order of the output lists: by rule name, byte-wise. *)
Definition name_le (a b : Service) : Prop :=
  String.leb (Name a) (Name b) = true.

(** Modelled from the spec: the stores are filled by the informers, which
    are missing; "objects keyed by namespace/name". *)
Definition MetaNamespaceKeyFunc (e : v1.Endpoints) : string :=
  v1.eps_Namespace e +:+ "/" +:+ v1.eps_Name e.

(** The keys the Configurator answered a call with: the affected services
    of a node operation; the other calls return nothing the handlers read. *)
Definition affectedServices (lbex : lbExController) (call : Call) : list string :=
  match call with
  | Cfg_DeleteNode key => nginx.DeleteNode (cfgtor lbex) key
  | Cfg_AddOrUpdateNode node => nginx.AddOrUpdateNode (cfgtor lbex) node
  | _ => []
  end.

(** A listed object [getServices] resolves: it validates and both helpers
    give its namespace and its name without error. *)
Definition getServices_candidate `{Helpers} (obj : v1.Service) : Prop :=
  ValidateServiceObject obj = true
  ∧ (GetServiceNamespace obj).2 = None
  ∧ (GetServiceName obj).2 = None.

#[global] Instance getServices_candidate_dec `{Helpers} (obj : v1.Service) :
  Decision (getServices_candidate obj).
Proof. unfold getServices_candidate. apply _. Defined.

(** The key under which [getServices] resolves a listed object. *)
Definition getServices_key `{Helpers} (obj : v1.Service) : string :=
  (GetServiceNamespace obj).1 +:+ "/" +:+ (GetServiceName obj).1.

(** ** Worked example: one service, its endpoints, one node *)

Module example.

Definition class : string * string :=
  (helpers.LBEXClassKey, helpers.LBEXClassKeyValue).

Definition numeric (port : Z) : intstr.IntOrString :=
  {| intstr.Type_ := intstr.Int; intstr.IntVal := port; intstr.StrVal := "" |}.

Definition symbolic (name : string) : intstr.IntOrString :=
  {| intstr.Type_ := intstr.String; intstr.IntVal := 0; intstr.StrVal := name |}.

Definition port_http : v1.ServicePort :=
  {| v1.sp_Name := "http"; v1.sp_Protocol := v1.ProtocolTCP;
     v1.sp_Port := 80; v1.sp_TargetPort := numeric 8080 |}.

(** A service opted in, asking for the algorithm "weighted". *)
Definition web : v1.Service :=
  {| v1.svc_Name := "web"; v1.svc_Namespace := "default";
     v1.svc_Annotations := [class; (helpers.LBEXAlgorithmKey, "weighted")];
     v1.svc_Type := "ClusterIP";
     v1.svc_Ports := [port_http] |}.

Definition entry (name : string) (port : Z) : v1.EndpointPort :=
  {| v1.ep_Name := name; v1.ep_Port := port; v1.ep_Protocol := v1.ProtocolTCP |}.

Definition subset (ip : string) : v1.EndpointSubset :=
  {| v1.Addresses := [{| v1.IP := ip |}]; v1.Ports := [entry "http" 8080] |}.

(** Two subsets exposing port 8080, with addresses A and B. *)
Definition web_endpoints : v1.Endpoints :=
  {| v1.eps_Name := "web"; v1.eps_Namespace := "default";
     v1.Subsets := [subset "10.0.0.1"; subset "10.0.0.2"] |}.

Definition db_endpoints : v1.Endpoints :=
  {| v1.eps_Name := "db"; v1.eps_Namespace := "default";
     v1.Subsets := [subset "10.0.1.1"] |}.

(** A store that never fails, holding [objs] under the keys [key] gives. *)
Definition store {A} (key : A → string) (objs : list A) : Store A :=
  {| GetByKey := λ k,
       match find (λ obj, String.eqb (key obj) k) objs with
       | Some obj => GetFound obj
       | None => GetMissing
       end;
     List := objs |}.

(** A store whose lookups fail. *)
Definition failing {A} : Store A :=
  {| GetByKey := λ _, GetErr "store unavailable"; List := [] |}.

Definition service_key (service : v1.Service) : string :=
  v1.svc_Namespace service +:+ "/" +:+ v1.svc_Name service.

(** A Configurator for which node "node-1" is referenced by two services. *)
Definition configurator : nginx.Configurator :=
  {| nginx.DeleteNode := λ key,
       if String.eqb key "node-1" then ["ns/svc-a"; "ns/svc-c"] else [];
     nginx.AddOrUpdateNode := λ _, [] |}.

Definition running : TaskQueue := {| IsShuttingDown := false |}.

Definition controller (services : Store v1.Service)
    (endpoints : list v1.Endpoints) : lbExController :=
  {| endpointStore := store MetaNamespaceKeyFunc endpoints;
     endpointsQueue := running;
     servicesStore := services;
     servicesQueue := running;
     nodesStore := store v1.node_Name [];
     nodesQueue := running;
     service := "";
     cfgtor := configurator |}.

Definition lbex : lbExController :=
  controller (store service_key [web]) [web_endpoints; db_endpoints].

(** The same contents, listed by the endpoint store in another order. *)
Definition lbex_relisted : lbExController :=
  controller (store service_key [web]) [db_endpoints; web_endpoints].

(** The endpoint store answers, the service store fails. *)
Definition lbex_failing : lbExController :=
  controller failing [web_endpoints].

End example.

(** ** Further scenarios *)

Module scenario.

(** A service that did not opt in: no class annotation. *)
Definition plain : v1.Service :=
  {| v1.svc_Name := "plain"; v1.svc_Namespace := "default";
     v1.svc_Annotations := [];
     v1.svc_Type := "ClusterIP";
     v1.svc_Ports := [example.port_http] |}.

(** A port with a symbolic target. *)
Definition port_named : v1.ServicePort :=
  {| v1.sp_Name := "web"; v1.sp_Protocol := v1.ProtocolTCP;
     v1.sp_Port := 80; v1.sp_TargetPort := example.symbolic "http" |}.

(** A port whose numeric target is 0. *)
Definition port_zero : v1.ServicePort :=
  {| v1.sp_Name := "none"; v1.sp_Protocol := v1.ProtocolTCP;
     v1.sp_Port := 80; v1.sp_TargetPort := example.numeric 0 |}.

Definition lbex_plain : lbExController :=
  example.controller (example.store example.service_key [plain])
    [example.web_endpoints].

Definition stopping : TaskQueue := {| IsShuttingDown := true |}.

(** Every queue is shutting down and every store fails. *)
Definition lbex_stopping : lbExController :=
  {| endpointStore := example.failing;
     endpointsQueue := stopping;
     servicesStore := example.failing;
     servicesQueue := stopping;
     nodesStore := example.failing;
     nodesQueue := stopping;
     service := "";
     cfgtor := example.configurator |}.

(** Modelled from the spec: [getTargetPort] and [getServiceNameForLBRule]
    of the earlier revision are declared outside the file; the numeric
    target of the port, and a rule name combining the service name and the
    frontend port. *)
Definition earlier_helpers : earlier.Helpers :=
  earlier.Build_Helpers
    (λ servicePort, intstr.IntVal (v1.sp_TargetPort servicePort))
    (λ service servicePort,
       v1.svc_Name service +:+ "-" +:+ pretty servicePort)
    helpers.IsValid
    (λ service,
       helpers.annotation helpers.LBEXHostKey (v1.svc_Annotations service))
    (λ service,
       helpers.annotation helpers.LBEXAlgorithmKey
         (v1.svc_Annotations service)).

Definition obj_key (obj : earlier.Obj) : string :=
  match obj with
  | earlier.ObjService service => example.service_key service
  | earlier.ObjEndpoints endpoints => MetaNamespaceKeyFunc endpoints
  | earlier.ObjOther => ""
  end.

Definition kube_dns : v1.Endpoints :=
  {| v1.eps_Name := "kube-dns"; v1.eps_Namespace := "kube-system";
     v1.Subsets := [example.subset "10.0.2.1"] |}.

Definition earlier_controller (objects : list earlier.Obj)
    : earlier.lbExController :=
  {| earlier.endpointStore :=
       example.store obj_key
         [earlier.ObjEndpoints example.web_endpoints;
          earlier.ObjEndpoints kube_dns];
     earlier.endpointsQueue := example.running;
     earlier.servicesStore := example.store obj_key objects;
     earlier.servicesQueue := example.running;
     earlier.service := "" |}.

(** The service store as its informer fills it: services only. *)
Definition earlier_services : earlier.lbExController :=
  earlier_controller [earlier.ObjService example.web].

(** A service store in which an Endpoints object is listed first. *)
Definition earlier_mixed : earlier.lbExController :=
  earlier_controller
    [earlier.ObjEndpoints example.web_endpoints;
     earlier.ObjService example.web].

End scenario.

(** ** A helper outside the int32 range *)

Module overflow.

(** The Go result type of [GetServicePortTargetPortInt] is [int].  This
    instance of the helpers is the reference instance, except that the
    numeric target it gives is 2^32, a value that is not an [int32]. *)
Definition helpers : Helpers :=
  Build_Helpers
    helpers.ValidateServiceObject
    (λ service, (v1.svc_Name service, None))
    (λ service, (v1.svc_Namespace service, None))
    (λ _, (4294967296, None))
    helpers.GetServiceNameForLBRule
    (λ service,
       helpers.annotation helpers.LBEXHostKey (v1.svc_Annotations service))
    (λ service,
       helpers.annotation helpers.LBEXAlgorithmKey
         (v1.svc_Annotations service))
    (λ _, None)
    (λ _, None)
    helpers.GetNodeAddress
    (λ node, negb (v1.node_Unschedulable node)).

End overflow.

(** * Properties *)

(** ** Loops that append *)

Lemma fold_left_snoc {A B} (f : B → A) (l : list B) (acc : list A) :
  fold_left (λ acc b, acc ++ [f b]) l acc = acc ++ map f l.
Proof.
  revert acc. induction l as [|b l IH]; intros acc; simpl.
  - by rewrite app_nil_r.
  - by rewrite IH, <- app_assoc.
Qed.

Lemma fold_left_app_bind {A B} (f : list A → B → list A) (g : B → list A)
    (l : list B) (acc : list A) :
  (∀ acc b, f acc b = acc ++ g b) →
  fold_left f l acc = acc ++ (l ≫= g).
Proof.
  intros Hf. revert acc. induction l as [|b l IH]; intros acc; simpl.
  - by rewrite app_nil_r.
  - by rewrite IH, Hf, <- app_assoc.
Qed.

(** ** getEndpoints *)

Section EndpointsFacts.
Context `{Helpers}.

(** The addresses one subset port entry appends. *)
Lemma getEndpoints_port_app servicePort subsets endpoints epPort :
  getEndpoints_port servicePort subsets endpoints epPort
  = endpoints ++ getEndpoints_port servicePort subsets [] epPort.
Proof.
  unfold getEndpoints_port.
  destruct (targetPort_switch servicePort epPort) as [t|]; [|by rewrite app_nil_r].
  destruct (t =? 0); [by rewrite app_nil_r|].
  by rewrite !fold_left_snoc.
Qed.

Lemma getEndpoints_port_contributes servicePort subsets epPort targetPort :
  contributes servicePort epPort targetPort →
  getEndpoints_port servicePort subsets [] epPort
  = map (λ a, Sprintf_addr (v1.IP a) targetPort) (v1.Addresses subsets).
Proof.
  intros [Hsw Hne]. unfold getEndpoints_port. rewrite Hsw.
  destruct (Z.eqb_spec targetPort 0) as [?|_]; [done|].
  by rewrite fold_left_snoc.
Qed.


Lemma elem_of_getEndpoints_port servicePort subsets epPort x :
  x ∈ getEndpoints_port servicePort subsets [] epPort ↔
  ∃ epAddress targetPort,
    contributes servicePort epPort targetPort
    ∧ epAddress ∈ v1.Addresses subsets
    ∧ x = Sprintf_addr (v1.IP epAddress) targetPort.
Proof.
  split.
  - unfold getEndpoints_port.
    destruct (targetPort_switch servicePort epPort) as [t|] eqn:Hsw;
      [|by intros ?%elem_of_nil].
    destruct (Z.eqb_spec t 0) as [?|Hne]; [by intros ?%elem_of_nil|].
    rewrite fold_left_snoc. simpl. intros Hx.
    apply list_elem_of_fmap in Hx as (a & -> & Ha).
    exists a, t. by repeat split.
  - intros (a & t & Hc & Ha & ->).
    rewrite (getEndpoints_port_contributes _ _ _ t Hc).
    apply list_elem_of_fmap. eauto.
Qed.

Lemma getEndpoints_subset_app servicePort endpoints subsets :
  getEndpoints_subset servicePort endpoints subsets
  = endpoints
    ++ (v1.Ports subsets ≫= getEndpoints_port servicePort subsets []).
Proof.
  unfold getEndpoints_subset. apply fold_left_app_bind.
  intros. apply getEndpoints_port_app.
Qed.

Lemma getEndpoints_found lbex service servicePort svcEndpoints :
  getServiceEndpoints lbex service = (svcEndpoints, None) →
  getEndpoints lbex service servicePort
  = v1.Subsets svcEndpoints ≫= λ subsets,
      v1.Ports subsets ≫= getEndpoints_port servicePort subsets [].
Proof.
  intros Hfound. unfold getEndpoints. rewrite Hfound.
  rewrite (fold_left_app_bind _
    (λ subsets, v1.Ports subsets ≫= getEndpoints_port servicePort subsets [])).
  - done.
  - intros. apply getEndpoints_subset_app.
Qed.

Lemma getEndpoints_not_found lbex service servicePort e err :
  getServiceEndpoints lbex service = (e, Some err) →
  getEndpoints lbex service servicePort = [].
Proof. intros Hnf. unfold getEndpoints. by rewrite Hnf. Qed.

End EndpointsFacts.

Section EndpointsClaims.
Context `{Helpers}.

(** [getServiceEndpoints] succeeds with the first object of the listing
    that carries the service's name and namespace. *)
Lemma getServiceEndpoints_loop_found service l endpoints0 e :
  getServiceEndpoints_loop service l endpoints0 = (e, None) →
  e ∈ l
  ∧ v1.svc_Name service = v1.eps_Name e
  ∧ v1.svc_Namespace service = v1.eps_Namespace e.
Proof.
  revert endpoints0. induction l as [|ep l IH]; intros endpoints0; simpl; [done|].
  destruct (String.eqb_spec (v1.svc_Name service) (v1.eps_Name ep)) as [Hn|_];
    destruct (String.eqb_spec (v1.svc_Namespace service) (v1.eps_Namespace ep))
      as [Hns|_]; simpl.
  1: { intros [= <-]. split; [left|done]. }
  all: intros (? & ? & ?)%IH; split; [by right|done].
Qed.

(** C3: the match of a subset port entry against a service port is decided
    by the type of the target port alone.  For a numeric target the entry
    contributes exactly when its port number equals the numeric target port
    (the entry's name is not consulted); for a symbolic target it
    contributes exactly when its name equals the target's name (no number of
    the service port is consulted).  In both cases the resolved port must
    be non-zero. *)
Theorem targetPort_match_exclusive servicePort epPort targetPort :
  contributes servicePort epPort targetPort ↔
  match intstr.Type_ (v1.sp_TargetPort servicePort) with
  | intstr.Int =>
      GetServicePortTargetPortInt servicePort = (targetPort, None)
      ∧ v1.ep_Port epPort = int32 targetPort
      ∧ targetPort ≠ 0
  | intstr.String =>
      v1.ep_Name epPort = intstr.StrVal (v1.sp_TargetPort servicePort)
      ∧ v1.ep_Port epPort = targetPort
      ∧ targetPort ≠ 0
  end.
Proof.
  unfold contributes, targetPort_switch.
  destruct (intstr.Type_ (v1.sp_TargetPort servicePort)).
  - destruct (GetServicePortTargetPortInt servicePort) as [n [err|]].
    + split; [by intros [? _]|by intros [? _]].
    + destruct (Z.eqb_spec (v1.ep_Port epPort) (int32 n)) as [Heq|Hne].
      * split.
        -- intros [[= <-] ?]. done.
        -- intros ([= <-] & _ & ?). done.
      * split.
        -- intros [[= <-] ?]. done.
        -- intros ([= <-] & ? & _). done.
  - destruct (String.eqb_spec (v1.ep_Name epPort)
                (intstr.StrVal (v1.sp_TargetPort servicePort))) as [Heq|Hne].
    + split.
      * intros [[= <-] ?]. done.
      * intros (_ & <- & ?). done.
    + split.
      * intros [[= <-] ?]. done.
      * intros (? & _). done.
Qed.

(** A numeric target never matches by name: the entry's name is irrelevant. *)
Lemma targetPort_switch_Int_ignores_name servicePort epPort name' :
  intstr.Type_ (v1.sp_TargetPort servicePort) = intstr.Int →
  targetPort_switch servicePort
    {| v1.ep_Name := name'; v1.ep_Port := v1.ep_Port epPort;
       v1.ep_Protocol := v1.ep_Protocol epPort |}
  = targetPort_switch servicePort epPort.
Proof. intros HT. unfold targetPort_switch. by rewrite HT. Qed.

(** A symbolic target never matches by number: an entry with another name
    is skipped whatever its port. *)
Lemma targetPort_switch_String_other_name servicePort epPort :
  intstr.Type_ (v1.sp_TargetPort servicePort) = intstr.String →
  v1.ep_Name epPort ≠ intstr.StrVal (v1.sp_TargetPort servicePort) →
  targetPort_switch servicePort epPort = Some 0.
Proof.
  intros HT Hne. unfold targetPort_switch. rewrite HT.
  by destruct (String.eqb_spec (v1.ep_Name epPort)
                 (intstr.StrVal (v1.sp_TargetPort servicePort))).
Qed.

(** C4: the result of [getEndpoints] is the union, over the subsets of the
    service's Endpoints object and over the port entries of each subset
    that match the target, of the subset's addresses, each formatted as
    "ip:targetPort". *)
Theorem getEndpoints_union lbex service servicePort x :
  x ∈ getEndpoints lbex service servicePort ↔
  ∃ svcEndpoints subsets epPort epAddress targetPort,
    getServiceEndpoints lbex service = (svcEndpoints, None)
    ∧ subsets ∈ v1.Subsets svcEndpoints
    ∧ epPort ∈ v1.Ports subsets
    ∧ contributes servicePort epPort targetPort
    ∧ epAddress ∈ v1.Addresses subsets
    ∧ x = Sprintf_addr (v1.IP epAddress) targetPort.
Proof.
  destruct (getServiceEndpoints lbex service) as [e [err|]] eqn:Hget.
  - rewrite (getEndpoints_not_found _ _ _ _ _ Hget). split.
    + by intros ?%elem_of_nil.
    + by intros (? & ? & ? & ? & ? & [=] & _).
  - rewrite (getEndpoints_found _ _ _ _ Hget). split.
    + intros (subsets & Hx & Hs)%list_elem_of_bind.
      apply list_elem_of_bind in Hx as (epPort & Hx & Hp).
      apply elem_of_getEndpoints_port in Hx as (a & t & Hc & Ha & ->).
      exists e, subsets, epPort, a, t. done.
    + intros (e' & subsets & epPort & a & t & [= <-] & Hs & Hp & Hc & Ha & ->).
      apply list_elem_of_bind. exists subsets. split; [|done].
      apply list_elem_of_bind. exists epPort. split; [|done].
      apply elem_of_getEndpoints_port. eauto.
Qed.

(** Two subsets that both expose the matching port: the result is the
    addresses of the first followed by the addresses of the second. *)
Lemma getEndpoints_two_subsets lbex service servicePort svcEndpoints
    s1 s2 p1 p2 targetPort :
  getServiceEndpoints lbex service = (svcEndpoints, None) →
  v1.Subsets svcEndpoints = [s1; s2] →
  v1.Ports s1 = [p1] → v1.Ports s2 = [p2] →
  contributes servicePort p1 targetPort →
  contributes servicePort p2 targetPort →
  getEndpoints lbex service servicePort
  = map (λ a, Sprintf_addr (v1.IP a) targetPort) (v1.Addresses s1)
    ++ map (λ a, Sprintf_addr (v1.IP a) targetPort) (v1.Addresses s2).
Proof.
  intros Hget Hs Hp1 Hp2 Hc1 Hc2.
  rewrite (getEndpoints_found _ _ _ _ Hget), Hs. simpl.
  rewrite Hp1, Hp2. simpl.
  rewrite (getEndpoints_port_contributes _ _ _ _ Hc1).
  rewrite (getEndpoints_port_contributes _ _ _ _ Hc2).
  by rewrite !app_nil_r.
Qed.



End EndpointsClaims.

(** ** Sorting by rule name *)

Lemma ascii_compare_refl (a : ascii) : Ascii.compare a a = Eq.
Proof. unfold Ascii.compare. apply N.compare_refl. Qed.

Lemma ascii_compare_lt_trans (a b c : ascii) :
  Ascii.compare a b = Lt → Ascii.compare b c = Lt → Ascii.compare a c = Lt.
Proof.
  unfold Ascii.compare. rewrite !N.compare_lt_iff. apply N.lt_trans.
Qed.

Lemma string_compare_le_trans (s1 s2 s3 : string) :
  String.compare s1 s2 ≠ Gt → String.compare s2 s3 ≠ Gt →
  String.compare s1 s3 ≠ Gt.
Proof.
  revert s2 s3. induction s1 as [|a s1 IH]; intros [|b s2] [|c s3]; simpl;
    try done.
  destruct (Ascii.compare a b) eqn:Hab; [| |done];
    destruct (Ascii.compare b c) eqn:Hbc; try done.
  - apply Ascii.compare_eq_iff in Hab as ->.
    apply Ascii.compare_eq_iff in Hbc as ->.
    rewrite ascii_compare_refl. apply IH.
  - apply Ascii.compare_eq_iff in Hab as ->. by rewrite Hbc.
  - apply Ascii.compare_eq_iff in Hbc as <-. by rewrite Hab.
  - by rewrite (ascii_compare_lt_trans _ _ _ Hab Hbc).
Qed.

Lemma string_leb_compare (s1 s2 : string) :
  String.leb s1 s2 = true ↔ String.compare s1 s2 ≠ Gt.
Proof. unfold String.leb. by destruct (String.compare s1 s2). Qed.

Lemma string_ltb_false_leb (s1 s2 : string) :
  String.ltb s2 s1 = false ↔ String.leb s1 s2 = true.
Proof.
  unfold String.ltb, String.leb. rewrite (String.compare_antisym s1 s2).
  by destruct (String.compare s2 s1).
Qed.

#[global] Instance name_le_trans : Transitive name_le.
Proof.
  intros a b c. unfold name_le. rewrite !string_leb_compare.
  apply string_compare_le_trans.
Qed.

#[global] Instance name_le_total : Total name_le.
Proof. intros a b. unfold name_le. apply String.leb_total. Qed.

Lemma notLess_serviceByName (a b : Service) :
  notLess serviceByName_Less a b ↔ name_le a b.
Proof. unfold notLess, serviceByName_Less, name_le. apply string_ltb_false_leb. Qed.

#[global] Instance notLess_serviceByName_total :
  Total (notLess serviceByName_Less).
Proof.
  intros a b. rewrite !notLess_serviceByName. apply name_le_total.
Qed.

Lemma Sorted_weaken {A} (R1 R2 : relation A) (l : list A) :
  (∀ a b, R1 a b → R2 a b) → Sorted R1 l → Sorted R2 l.
Proof.
  intros HR. induction 1 as [|a l _ IH Hhd]; constructor; [done|].
  destruct Hhd; constructor; auto.
Qed.

(** The contract of [sort.Sort], first half: a permutation of the input. *)
Lemma sort_Sort_Permutation {A} (Less : A → A → bool) (data : list A) :
  sort_Sort Less data ≡ₚ data.
Proof. apply merge_sort_Permutation. Qed.

(** The contract of [sort.Sort], second half: in the result no element is
    [Less] than one before it; for [serviceByName], names ascend. *)
Lemma sort_Sort_Sorted (data : list Service) :
  StronglySorted name_le (sort_Sort serviceByName_Less data).
Proof.
  apply Sorted_StronglySorted; [apply _|].
  apply (Sorted_weaken (notLess serviceByName_Less)).
  - intros a b. apply notLess_serviceByName.
  - apply (Sorted_merge_sort (notLess serviceByName_Less)).
Qed.

Lemma sort_Sort_Forall {A} (P : A → Prop) (Less : A → A → bool) (data : list A) :
  Forall P (sort_Sort Less data) ↔ Forall P data.
Proof. by rewrite sort_Sort_Permutation. Qed.

(** ** getService *)

Section ServiceFacts.
Context `{Helpers}.
Variable lbex : lbExController.

Lemma getService_algorithm_frame val supported newSvc :
  Name (getService_algorithm val supported newSvc) = Name newSvc
  ∧ Ep (getService_algorithm val supported newSvc) = Ep newSvc
  ∧ Host (getService_algorithm val supported newSvc) = Host newSvc
  ∧ BackendPort (getService_algorithm val supported newSvc) = BackendPort newSvc.
Proof.
  induction supported as [|current rest IH]; simpl; [done|].
  by destruct (String.eqb val current).
Qed.

(** The loop over the supported algorithms assigns a supported value and
    leaves the field alone otherwise. *)
Lemma getService_algorithm_supported val supported newSvc :
  val ∈ supported →
  Algorithm (getService_algorithm val supported newSvc) = val.
Proof.
  induction supported as [|current rest IH]; simpl; [by intros ?%elem_of_nil|].
  destruct (String.eqb_spec val current) as [->|Hne]; [done|].
  intros [?|?]%elem_of_cons; [done|auto].
Qed.

Lemma getService_algorithm_unsupported val supported newSvc :
  val ∉ supported →
  getService_algorithm val supported newSvc = newSvc.
Proof.
  induction supported as [|current rest IH]; simpl; [done|].
  intros [Hne Hrest]%not_elem_of_cons.
  destruct (String.eqb_spec val current) as [?|_]; [done|auto].
Qed.

Lemma getService_newSvc_Ep service serviceName servicePort ep :
  Ep (getService_newSvc service serviceName servicePort ep) = ep.
Proof.
  unfold getService_newSvc.
  destruct (GetServicePortTargetPortInt servicePort) as [backendPort ?].
  destruct (GetHost service) as [host []], (GetAlgorithm service) as [val []];
    unfold set_FrontendPort; cbn [Ep]; try done.
  all: match goal with
       | |- Ep (getService_algorithm ?v ?s ?n) = _ =>
           by destruct (getService_algorithm_frame v s n) as (_ & -> & _)
       end.
Qed.

(** The algorithm of the record built for a service port: the annotation
    value when it is a supported one, the default when there is no
    annotation, and the zero value of the field, the empty string, when the
    annotation is present with a value outside the supported set. *)
Lemma getService_newSvc_Algorithm service serviceName servicePort ep :
  Algorithm (getService_newSvc service serviceName servicePort ep)
  = match GetAlgorithm service with
    | (val, true) =>
        if decide (val ∈ nginx.SupportedAlgorithms) then val else ""
    | (_, false) => nginx.DefaultAlgorithm
    end.
Proof.
  unfold getService_newSvc.
  destruct (GetServicePortTargetPortInt servicePort) as [backendPort ?].
  destruct (GetAlgorithm service) as [val []];
    unfold set_FrontendPort; cbn [Algorithm]; [|done].
  destruct (decide (val ∈ nginx.SupportedAlgorithms)) as [Hin|Hnin].
  - by apply getService_algorithm_supported.
  - rewrite (getService_algorithm_unsupported _ _ _ Hnin).
    by destruct (GetHost service) as [host []].
Qed.

(** One iteration of the loop over the service ports keeps a property of
    the records when the record it may append has it. *)
Lemma getService_port_Forall (P : Service → Prop) service serviceName acc
    servicePort :
  (getEndpoints lbex service servicePort ≠ [] →
   P (getService_newSvc service serviceName servicePort
        (getEndpoints lbex service servicePort))) →
  Forall P acc.1 ∧ Forall P acc.2 →
  Forall P (getService_port lbex service serviceName acc servicePort).1
  ∧ Forall P (getService_port lbex service serviceName acc servicePort).2.
Proof.
  intros Hnew [Htcp Hudp]. unfold getService_port.
  destruct acc as [tcpServices udpServices]. simpl in *.
  destruct (getEndpoints lbex service servicePort) as [|a ep] eqn:Hep; simpl;
    [done|].
  destruct (String.eqb (v1.sp_Protocol servicePort) v1.ProtocolUDP); simpl;
    split; try done; apply Forall_app; split; try done;
    apply Forall_singleton, Hnew; done.
Qed.

Lemma getService_ports_Forall (P : Service → Prop) service serviceName ports acc :
  (∀ servicePort, servicePort ∈ ports →
     getEndpoints lbex service servicePort ≠ [] →
     P (getService_newSvc service serviceName servicePort
          (getEndpoints lbex service servicePort))) →
  Forall P acc.1 ∧ Forall P acc.2 →
  Forall P (fold_left (getService_port lbex service serviceName) ports acc).1
  ∧ Forall P (fold_left (getService_port lbex service serviceName) ports acc).2.
Proof.
  revert acc. induction ports as [|servicePort ports IH]; intros acc Hnew Hacc;
    simpl; [done|].
  apply IH.
  - intros sp Hsp. apply Hnew. by right.
  - apply getService_port_Forall; [|done]. apply Hnew. by left.
Qed.

(** Every record of both output lists of [getService] was built by
    [getService_newSvc] for a port of the stored service object whose
    endpoint list is not empty. *)
Lemma getService_Forall (P : Service → Prop) key :
  (∀ obj servicePort,
     GetByKey (servicesStore lbex) key = GetFound obj →
     servicePort ∈ v1.svc_Ports obj →
     getEndpoints lbex obj servicePort ≠ [] →
     P (getService_newSvc obj (GetServiceName obj).1 servicePort
          (getEndpoints lbex obj servicePort))) →
  Forall P (getService lbex key).1 ∧ Forall P (getService lbex key).2.
Proof.
  intros Hnew. unfold getService.
  destruct (GetByKey (servicesStore lbex) key) as [e| |obj]; simpl; [done..|].
  destruct (ValidateServiceObject obj); simpl; [|done].
  specialize (Hnew obj).
  destruct (GetServiceName obj) as [serviceName err]. simpl in Hnew.
  destruct (negb (String.eqb (service lbex) "")
            && negb (String.eqb (service lbex) serviceName)); simpl; [done|].
  destruct (getService_ports_Forall P obj serviceName (v1.svc_Ports obj) ([], []))
    as [Htcp Hudp]; [by auto|done|].
  destruct (fold_left _ _ _) as [tcpServices udpServices]. simpl in *.
  by rewrite !sort_Sort_Forall.
Qed.

(** C2: every record of the TCP and of the UDP list returned by
    [getService] has at least one endpoint address; a port whose endpoint
    list is empty is skipped before a record is built. *)
Theorem getService_endpoints_nonempty key :
  Forall (λ svc, Ep svc ≠ []) (getService lbex key).1
  ∧ Forall (λ svc, Ep svc ≠ []) (getService lbex key).2.
Proof.
  apply getService_Forall. intros obj servicePort _ _ Hne.
  by rewrite getService_newSvc_Ep.
Qed.

(** A port without endpoints leaves both lists as they are. *)
Lemma getService_port_no_endpoints service serviceName acc servicePort :
  getEndpoints lbex service servicePort = [] →
  getService_port lbex service serviceName acc servicePort = acc.
Proof.
  intros Hep. unfold getService_port. destruct acc. by rewrite Hep.
Qed.

(** With the algorithm annotation present and outside the supported set,
    every record carries the empty string as its algorithm: neither the
    annotation value nor the default. *)
Lemma getService_unsupported_algorithm key val :
  (∀ obj, GetByKey (servicesStore lbex) key = GetFound obj →
          GetAlgorithm obj = (val, true)) →
  val ∉ nginx.SupportedAlgorithms →
  Forall (λ svc, Algorithm svc = "") (getService lbex key).1
  ∧ Forall (λ svc, Algorithm svc = "") (getService lbex key).2.
Proof.
  intros Hann Hval. apply getService_Forall. intros obj servicePort Hobj _ _.
  rewrite getService_newSvc_Algorithm, (Hann obj Hobj).
  by destruct (decide (val ∈ nginx.SupportedAlgorithms)).
Qed.

Lemma getService_sorted key :
  StronglySorted name_le (getService lbex key).1
  ∧ StronglySorted name_le (getService lbex key).2.
Proof.
  unfold getService.
  destruct (GetByKey (servicesStore lbex) key) as [e| |obj]; simpl;
    [by split; constructor..|].
  destruct (ValidateServiceObject obj); simpl; [|by split; constructor].
  destruct (GetServiceName obj) as [serviceName err].
  destruct (negb (String.eqb (service lbex) "")
            && negb (String.eqb (service lbex) serviceName)); simpl;
    [by split; constructor|].
  destruct (fold_left _ _ _) as [tcpServices udpServices]. simpl.
  split; apply sort_Sort_Sorted.
Qed.

Lemma getServices_sorted :
  StronglySorted name_le (getServices lbex).1
  ∧ StronglySorted name_le (getServices lbex).2.
Proof.
  unfold getServices.
  destruct (fold_left _ _ _) as [tcpServices udpServices]. simpl.
  split; apply sort_Sort_Sorted.
Qed.

(** C5: the TCP and the UDP list returned by [getService] and by
    [getServices] ascend by rule name, whatever the store holds and in
    whatever order it lists its objects. *)
Theorem getService_getServices_sorted key :
  StronglySorted name_le (getService lbex key).1
  ∧ StronglySorted name_le (getService lbex key).2
  ∧ StronglySorted name_le (getServices lbex).1
  ∧ StronglySorted name_le (getServices lbex).2.
Proof.
  destruct (getService_sorted key), getServices_sorted. done.
Qed.

End ServiceFacts.

(** ** Determinism of getService *)

Section Determinism.
Context `{Helpers}.

Lemma fold_left_ext_eq {A B} (f g : A → B → A) (l : list B) (a : A) :
  (∀ a b, f a b = g a b) → fold_left f l a = fold_left g l a.
Proof.
  intros Hfg. revert a. induction l as [|b l IH]; intros a; simpl; [done|].
  by rewrite Hfg, IH.
Qed.

Lemma NoDup_fmap_eq {A B} (f : A → B) (l : list A) (x y : A) :
  NoDup (f <$> l) → x ∈ l → y ∈ l → f x = f y → x = y.
Proof.
  induction l as [|a l IH]; simpl; [by intros _ ?%elem_of_nil|].
  intros [Ha Hl]%NoDup_cons [->|Hx]%elem_of_cons [->|Hy]%elem_of_cons Hf.
  - done.
  - destruct Ha. rewrite Hf. by apply list_elem_of_fmap_2.
  - destruct Ha. rewrite <- Hf. by apply list_elem_of_fmap_2.
  - by apply IH.
Qed.

(** The object the loop returns is decided by membership alone when at most
    one object of the listing carries the service's name and namespace. *)
Lemma getServiceEndpoints_loop_unique service l endpoints0 e :
  e ∈ l →
  v1.svc_Name service = v1.eps_Name e →
  v1.svc_Namespace service = v1.eps_Namespace e →
  (∀ e', e' ∈ l →
         v1.svc_Name service = v1.eps_Name e' →
         v1.svc_Namespace service = v1.eps_Namespace e' → e' = e) →
  getServiceEndpoints_loop service l endpoints0 = (e, None).
Proof.
  intros Hin Hn Hns. revert endpoints0.
  induction l as [|ep l IH]; intros endpoints0 Huniq; simpl;
    [by apply elem_of_nil in Hin|].
  destruct (String.eqb_spec (v1.svc_Name service) (v1.eps_Name ep)) as [Hn'|Hn'];
    destruct (String.eqb_spec (v1.svc_Namespace service) (v1.eps_Namespace ep))
      as [Hns'|Hns']; simpl.
  1: { by rewrite (Huniq ep) by (done || by left). }
  all: apply elem_of_cons in Hin as [->|Hin]; [done|];
       apply IH; [done|]; intros e' He'; apply Huniq; by right.
Qed.

Lemma MetaNamespaceKeyFunc_same service e e' :
  v1.svc_Name service = v1.eps_Name e →
  v1.svc_Namespace service = v1.eps_Namespace e →
  v1.svc_Name service = v1.eps_Name e' →
  v1.svc_Namespace service = v1.eps_Namespace e' →
  MetaNamespaceKeyFunc e' = MetaNamespaceKeyFunc e.
Proof. unfold MetaNamespaceKeyFunc. by intros <- <- <- <-. Qed.

(** [getEndpoints] does not depend on the order in which the endpoint
    store lists its objects. *)
Lemma getEndpoints_listing_order lbex1 lbex2 service servicePort :
  List (endpointStore lbex1) ≡ₚ List (endpointStore lbex2) →
  NoDup (MetaNamespaceKeyFunc <$> List (endpointStore lbex1)) →
  getEndpoints lbex1 service servicePort = getEndpoints lbex2 service servicePort.
Proof.
  intros Hperm Hkeys. unfold getEndpoints, getServiceEndpoints.
  destruct (getServiceEndpoints_loop service (List (endpointStore lbex1))
              v1.Endpoints_zero) as [e [err|]] eqn:H1.
  - destruct (getServiceEndpoints_loop service (List (endpointStore lbex2))
                v1.Endpoints_zero) as [e2 [err2|]] eqn:H2; [done|].
    apply getServiceEndpoints_loop_found in H2 as (Hin & Hn & Hns).
    rewrite <- Hperm in Hin.
    assert (getServiceEndpoints_loop service (List (endpointStore lbex1))
              v1.Endpoints_zero = (e2, None)) as Hfound; [|congruence].
    apply getServiceEndpoints_loop_unique; [done..|].
    intros e' He' Hn' Hns'.
    apply (NoDup_fmap_eq MetaNamespaceKeyFunc _ _ _ Hkeys); [done..|].
    by apply (MetaNamespaceKeyFunc_same service).
  - apply getServiceEndpoints_loop_found in H1 as (Hin & Hn & Hns).
    rewrite (getServiceEndpoints_loop_unique service
               (List (endpointStore lbex2)) v1.Endpoints_zero e); [done| |done..|].
    + by rewrite <- Hperm.
    + intros e' He' Hn' Hns'. rewrite <- Hperm in He'.
      apply (NoDup_fmap_eq MetaNamespaceKeyFunc _ _ _ Hkeys); [done..|].
      by apply (MetaNamespaceKeyFunc_same service).
Qed.

(** C6: two runs of [getService] for one key over the same store contents
    return the same two lists.  The contents are the same when the lookup
    of the key in the service store gives the same answer and the endpoint
    store holds the same objects; the order in which the endpoint store
    lists them may differ from one run to the next.  The endpoint store is
    keyed by namespace/name. *)
Theorem getService_deterministic lbex1 lbex2 key :
  GetByKey (servicesStore lbex1) key = GetByKey (servicesStore lbex2) key →
  service lbex1 = service lbex2 →
  List (endpointStore lbex1) ≡ₚ List (endpointStore lbex2) →
  NoDup (MetaNamespaceKeyFunc <$> List (endpointStore lbex1)) →
  getService lbex1 key = getService lbex2 key.
Proof.
  intros Hget Hscope Hperm Hkeys. unfold getService. rewrite Hget, Hscope.
  destruct (GetByKey (servicesStore lbex2) key) as [e| |obj]; [done..|].
  destruct (ValidateServiceObject obj); simpl; [|done].
  destruct (GetServiceName obj) as [serviceName err].
  destruct (negb (String.eqb (service lbex2) "")
            && negb (String.eqb (service lbex2) serviceName)); [done|].
  rewrite (fold_left_ext_eq (getService_port lbex1 obj serviceName)
             (getService_port lbex2 obj serviceName)); [done|].
  intros [tcpServices udpServices] servicePort. unfold getService_port.
  by rewrite (getEndpoints_listing_order lbex1 lbex2).
Qed.

End Determinism.

(** ** The sync handlers *)

Section SyncFacts.
Context `{Helpers}.
Variable lbex : lbExController.

(** A deleted node: the Configurator is asked to delete it, then every
    key it answers with is enqueued, in order. *)
Lemma syncNodes_deleted key :
  IsShuttingDown (nodesQueue lbex) = false →
  GetByKey (nodesStore lbex) key = GetMissing →
  syncNodes lbex key
  = (None,
     Cfg_DeleteNode key
       :: map ServicesQueue_Enqueue (nginx.DeleteNode (cfgtor lbex) key)).
Proof. intros Hrun Hget. unfold syncNodes. by rewrite Hrun, Hget. Qed.



(** [syncEndpoints] never calls the Configurator nor a queue. *)
Lemma syncEndpoints_no_call key : (syncEndpoints lbex key).2 = [].
Proof.
  unfold syncEndpoints.
  destruct (IsShuttingDown (endpointsQueue lbex)); [done|].
  destruct (GetByKey (endpointStore lbex) key) as [e| |obj]; [done..|].
  destruct (getService lbex key) as [tcpSvc udpSvc].
  by destruct ((length udpSvc =? 0)%nat && (length tcpSvc =? 0)%nat).
Qed.

(** C9: for a key whose Endpoints object is no longer in the endpoint
    store, [syncEndpoints] makes no call on the Configurator and returns
    nil. *)
Theorem syncEndpoints_deleted key :
  GetByKey (endpointStore lbex) key = GetMissing →
  syncEndpoints lbex key = (None, []).
Proof.
  intros Hget. unfold syncEndpoints. rewrite Hget.
  by destruct (IsShuttingDown (endpointsQueue lbex)).
Qed.

(** The lookup inside [getService] is not reported: on an error the
    result is the one of a missing or unmanaged service. *)
Lemma getService_lookup_error key err :
  GetByKey (servicesStore lbex) key = GetErr err →
  getService lbex key = ([], []).
Proof. intros Hget. unfold getService. by rewrite Hget. Qed.

(** C7, as amended: when the lookup a handler makes itself, at its top,
    fails, and its queue is not shutting down, the handler returns that
    error and calls nothing; a failure of the lookup inside [getService]
    is not returned: [getService] gives two empty lists. *)
Theorem sync_lookup_error key err :
  (IsShuttingDown (nodesQueue lbex) = false →
   GetByKey (nodesStore lbex) key = GetErr err →
   syncNodes lbex key = (Some err, []))
  ∧ (IsShuttingDown (servicesQueue lbex) = false →
     GetByKey (servicesStore lbex) key = GetErr err →
     syncServices lbex key = (Some err, []))
  ∧ (IsShuttingDown (endpointsQueue lbex) = false →
     GetByKey (endpointStore lbex) key = GetErr err →
     syncEndpoints lbex key = (Some err, []))
  ∧ (GetByKey (servicesStore lbex) key = GetErr err →
     getService lbex key = ([], [])).
Proof.
  repeat split.
  - intros Hrun Hget. unfold syncNodes. by rewrite Hrun, Hget.
  - intros Hrun Hget. unfold syncServices. by rewrite Hrun, Hget.
  - intros Hrun Hget. unfold syncEndpoints. by rewrite Hrun, Hget.
  - apply getService_lookup_error.
Qed.

End SyncFacts.

(** ** The worked example, evaluated *)

Section Example.
Existing Instance helpers.reference.

(** C1 on the code: the service asks for "weighted", which is not a
    supported algorithm.  The record is built, and its algorithm is the
    empty string, not the default "roundrobin". *)
Theorem getService_weighted_algorithm :
  getService example.lbex "default/web"
  = ([{| Name := "web-80";
         Ep := ["10.0.0.1:8080"; "10.0.0.2:8080"];
         FrontendPort := 80;
         BackendPort := 8080;
         Host := "";
         Algorithm := "" |}],
     []).
Proof. vm_compute. reflexivity. Qed.

(** Union over two subsets with addresses A and B. *)
Example getEndpoints_two_subsets_example :
  getEndpoints example.lbex example.web example.port_http
  = ["10.0.0.1:8080"; "10.0.0.2:8080"].
Proof. vm_compute. reflexivity. Qed.

(** A symbolic target "http" does not match an entry named "web", even
    when the entry's port equals the numeric value carried along. *)
Example symbolic_target_no_numeric_match :
  targetPort_switch
    {| v1.sp_Name := "http"; v1.sp_Protocol := v1.ProtocolTCP; v1.sp_Port := 80;
       v1.sp_TargetPort :=
         {| intstr.Type_ := intstr.String; intstr.IntVal := 80;
            intstr.StrVal := "http" |} |}
    (example.entry "web" 80)
  = Some 0.
Proof. reflexivity. Qed.

(** A numeric target 8080 does not match an entry named like the service
    port but exposing another number. *)
Example numeric_target_no_name_match :
  targetPort_switch example.port_http (example.entry "http" 9090) = Some 0.
Proof. reflexivity. Qed.

Lemma targetPort_match_exclusive_witness :
  contributes example.port_http (example.entry "metrics" 8080) 8080.
Proof.
  apply (targetPort_match_exclusive example.port_http
           (example.entry "metrics" 8080) 8080).
  simpl. repeat split; first [reflexivity | discriminate].
Defined.

Lemma getEndpoints_union_witness :
  "10.0.0.2:8080" ∈ getEndpoints example.lbex example.web example.port_http.
Proof.
  apply (getEndpoints_union example.lbex example.web example.port_http).
  exists example.web_endpoints, (example.subset "10.0.0.2"),
    (example.entry "http" 8080), {| v1.IP := "10.0.0.2" |}, 8080.
  repeat split; first [reflexivity | discriminate | by left | by right; left].
Defined.



(** The same for a numeric target 0 and an entry with port 0. *)
Example numeric_target_zero_no_match :
  getEndpoints_port
    {| v1.sp_Name := "http"; v1.sp_Protocol := v1.ProtocolTCP; v1.sp_Port := 80;
       v1.sp_TargetPort := example.numeric 0 |}
    (example.subset "10.0.0.1") [] (example.entry "http" 0) = [].
Proof. reflexivity. Qed.

Lemma getService_deterministic_witness :
  getService example.lbex "default/web"
  = getService example.lbex_relisted "default/web".
Proof.
  apply getService_deterministic.
  - reflexivity.
  - reflexivity.
  - apply perm_swap.
  - apply (bool_decide_unpack _). vm_compute. reflexivity.
Defined.


(** Node-cascade: deleting the node referenced by "ns/svc-a" and
    "ns/svc-c" enqueues both keys. *)
Example syncNodes_cascade :
  syncNodes example.lbex "node-1"
  = (None,
     [Cfg_DeleteNode "node-1";
      ServicesQueue_Enqueue "ns/svc-a"; ServicesQueue_Enqueue "ns/svc-c"]).
Proof. reflexivity. Qed.

Lemma syncEndpoints_deleted_witness :
  syncEndpoints example.lbex "default/gone" = (None, []).
Proof. apply syncEndpoints_deleted. reflexivity. Defined.

(** C7 as stated fails: the endpoint store holds the key, the lookup of
    the key in the service store, made by [getService] during the run of
    [syncEndpoints], fails with an error, and [syncEndpoints] returns nil. *)
Lemma syncEndpoints_swallows_lookup_error :
  IsShuttingDown (endpointsQueue example.lbex_failing) = false
  ∧ GetByKey (endpointStore example.lbex_failing) "default/web"
    = GetFound example.web_endpoints
  ∧ GetByKey (servicesStore example.lbex_failing) "default/web"
    = GetErr "store unavailable"
  ∧ (syncEndpoints example.lbex_failing "default/web").1
    ≠ Some "store unavailable"
  ∧ syncEndpoints example.lbex_failing "default/web" = (None, []).
Proof. repeat split; try reflexivity. vm_compute. discriminate. Qed.

Lemma sync_lookup_error_witness :
  syncServices example.lbex_failing "default/web"
  = (Some "store unavailable", [])
  ∧ getService example.lbex_failing "default/web" = ([], []).
Proof.
  destruct (sync_lookup_error example.lbex_failing "default/web"
              "store unavailable") as (_ & Hservices & _ & Hget).
  split; [apply Hservices|apply Hget]; reflexivity.
Defined.

End Example.

(** * Further properties of the resolver *)

Section ResolverMore.
Context `{Helpers}.
Variable lbex : lbExController.

(** X1: [getServiceEndpoints] returns the first listed object that carries
    the service's name and namespace; objects listed after it are not
    looked at. *)
Theorem getServiceEndpoints_first_match service l1 e l2 :
  List (endpointStore lbex) = l1 ++ e :: l2 →
  Forall (λ e', ¬ (v1.svc_Name service = v1.eps_Name e'
                   ∧ v1.svc_Namespace service = v1.eps_Namespace e')) l1 →
  v1.svc_Name service = v1.eps_Name e →
  v1.svc_Namespace service = v1.eps_Namespace e →
  getServiceEndpoints lbex service = (e, None).
Proof.
  intros Hlist Hl1 Hn Hns. unfold getServiceEndpoints. rewrite Hlist.
  clear Hlist. generalize v1.Endpoints_zero.
  induction Hl1 as [|e' l1 He' _ IH]; intros endpoints0; simpl.
  - rewrite Hn, Hns, !String.eqb_refl. done.
  - destruct (String.eqb_spec (v1.svc_Name service) (v1.eps_Name e'));
      destruct (String.eqb_spec (v1.svc_Namespace service)
                  (v1.eps_Namespace e')); simpl.
    1: by destruct He'.
    all: apply IH.
Qed.

Lemma getServiceEndpoints_loop_not_found service l endpoints0 :
  Forall (λ e, ¬ (v1.svc_Name service = v1.eps_Name e
                  ∧ v1.svc_Namespace service = v1.eps_Namespace e)) l →
  getServiceEndpoints_loop service l endpoints0
  = (default endpoints0 (last l),
     Some ("could not find endpoints for service: " +:+ v1.svc_Name service)).
Proof.
  intros Hno. revert endpoints0.
  induction Hno as [|e l He _ IH]; intros endpoints0; simpl; [done|].
  destruct (String.eqb_spec (v1.svc_Name service) (v1.eps_Name e));
    destruct (String.eqb_spec (v1.svc_Namespace service)
                (v1.eps_Namespace e)); simpl.
  1: by destruct He.
  all: rewrite IH; destruct l as [|e1 l]; [done|];
       rewrite last_cons_cons;
       destruct (last (e1 :: l)) eqn:Hlast; [done|];
       by apply last_None in Hlast.
Qed.

(** X2: when no listed object carries the service's name and namespace,
    [getServiceEndpoints] fails; the Endpoints value it returns beside the
    error is the last listed object (the zero value for an empty listing),
    and [getEndpoints] resolves no address for any port. *)
Theorem getServiceEndpoints_not_found service :
  Forall (λ e, ¬ (v1.svc_Name service = v1.eps_Name e
                  ∧ v1.svc_Namespace service = v1.eps_Namespace e))
         (List (endpointStore lbex)) →
  getServiceEndpoints lbex service
  = (default v1.Endpoints_zero (last (List (endpointStore lbex))),
     Some ("could not find endpoints for service: " +:+ v1.svc_Name service))
  ∧ ∀ servicePort, getEndpoints lbex service servicePort = [].
Proof.
  intros Hno.
  pose proof (getServiceEndpoints_loop_not_found service _
                v1.Endpoints_zero Hno) as Hget.
  split; [done|]. intros servicePort.
  by apply (getEndpoints_not_found _ _ _ _ _ Hget).
Qed.

(** The addresses of a subset for a numeric target [n]: once for every
    port entry of the subset whose number is [n]. *)
Lemma getEndpoints_ports_numeric servicePort subsets n :
  intstr.Type_ (v1.sp_TargetPort servicePort) = intstr.Int →
  GetServicePortTargetPortInt servicePort = (n, None) →
  n ≠ 0 →
  v1.Ports subsets ≫= getEndpoints_port servicePort subsets []
  = filter (λ epPort, v1.ep_Port epPort = int32 n) (v1.Ports subsets)
    ≫= λ _, (λ a, Sprintf_addr (v1.IP a) n) <$> v1.Addresses subsets.
Proof.
  intros HT Hget Hn. induction (v1.Ports subsets) as [|epPort ports IH];
    [done|].
  rewrite filter_cons. cbn [mbind list_bind]. rewrite IH. clear IH.
  unfold getEndpoints_port at 1, targetPort_switch. rewrite HT, Hget.
  destruct (decide (v1.ep_Port epPort = int32 n)) as [Heq|Hne].
  - rewrite (proj2 (Z.eqb_eq _ _) Heq).
    destruct (Z.eqb_spec n 0) as [?|_]; [done|].
    by rewrite fold_left_snoc.
  - by rewrite (proj2 (Z.eqb_neq _ _) Hne).
Qed.

(** X3: for a numeric target [n], the result lists the subsets in order
    and, for every port entry of a subset whose number is [n], the
    addresses of the subset in order, all formatted with the port [n]: a
    subset with two such entries contributes its addresses twice. *)
Theorem getEndpoints_numeric service servicePort svcEndpoints n :
  getServiceEndpoints lbex service = (svcEndpoints, None) →
  intstr.Type_ (v1.sp_TargetPort servicePort) = intstr.Int →
  GetServicePortTargetPortInt servicePort = (n, None) →
  n ≠ 0 →
  getEndpoints lbex service servicePort
  = v1.Subsets svcEndpoints ≫= λ subsets,
      filter (λ epPort, v1.ep_Port epPort = int32 n) (v1.Ports subsets)
      ≫= λ _, (λ a, Sprintf_addr (v1.IP a) n) <$> v1.Addresses subsets.
Proof.
  intros Hfound HT Hget Hn. rewrite (getEndpoints_found _ _ _ _ Hfound).
  induction (v1.Subsets svcEndpoints) as [|subsets l IH]; [done|].
  cbn [mbind list_bind]. rewrite IH.
  by rewrite (getEndpoints_ports_numeric _ _ n).
Qed.

Lemma getEndpoints_ports_symbolic servicePort subsets :
  intstr.Type_ (v1.sp_TargetPort servicePort) = intstr.String →
  v1.Ports subsets ≫= getEndpoints_port servicePort subsets []
  = filter (λ epPort,
              v1.ep_Name epPort = intstr.StrVal (v1.sp_TargetPort servicePort)
              ∧ v1.ep_Port epPort ≠ 0) (v1.Ports subsets)
    ≫= λ epPort,
         (λ a, Sprintf_addr (v1.IP a) (v1.ep_Port epPort))
           <$> v1.Addresses subsets.
Proof.
  intros HT. induction (v1.Ports subsets) as [|epPort ports IH]; [done|].
  rewrite filter_cons. cbn [mbind list_bind]. rewrite IH. clear IH.
  unfold getEndpoints_port at 1, targetPort_switch. rewrite HT.
  destruct (String.eqb_spec (v1.ep_Name epPort)
              (intstr.StrVal (v1.sp_TargetPort servicePort))) as [Heq|Hne].
  - destruct (Z.eqb_spec (v1.ep_Port epPort) 0) as [Hz|Hnz].
    + rewrite decide_False by (by intros [_ ?]). done.
    + rewrite decide_True by done. by rewrite fold_left_snoc.
  - rewrite decide_False by (by intros [? _]). done.
Qed.

(** X4: for a symbolic target, the result lists, for every port entry
    with the target's name and a non-zero port, the addresses of its
    subset formatted with the port of that entry: two subsets may resolve
    one name to two different ports. *)
Theorem getEndpoints_symbolic service servicePort svcEndpoints :
  getServiceEndpoints lbex service = (svcEndpoints, None) →
  intstr.Type_ (v1.sp_TargetPort servicePort) = intstr.String →
  getEndpoints lbex service servicePort
  = v1.Subsets svcEndpoints ≫= λ subsets,
      filter (λ epPort,
                v1.ep_Name epPort
                = intstr.StrVal (v1.sp_TargetPort servicePort)
                ∧ v1.ep_Port epPort ≠ 0) (v1.Ports subsets)
      ≫= λ epPort,
           (λ a, Sprintf_addr (v1.IP a) (v1.ep_Port epPort))
             <$> v1.Addresses subsets.
Proof.
  intros Hfound HT. rewrite (getEndpoints_found _ _ _ _ Hfound).
  induction (v1.Subsets svcEndpoints) as [|subsets l IH]; [done|].
  cbn [mbind list_bind]. rewrite IH.
  by rewrite getEndpoints_ports_symbolic.
Qed.

(** X5: a numeric target that the helper cannot give, or gives as 0,
    resolves no address, whatever the endpoint store holds. *)
Theorem getEndpoints_numeric_unresolved service servicePort :
  intstr.Type_ (v1.sp_TargetPort servicePort) = intstr.Int →
  (GetServicePortTargetPortInt servicePort).2 ≠ None
  ∨ (GetServicePortTargetPortInt servicePort).1 = 0 →
  getEndpoints lbex service servicePort = [].
Proof.
  intros HT Hbad.
  assert (∀ subsets epPort,
            getEndpoints_port servicePort subsets [] epPort = []) as Hport.
  { intros subsets epPort. unfold getEndpoints_port, targetPort_switch.
    rewrite HT.
    destruct (GetServicePortTargetPortInt servicePort) as [n [err|]];
      [done|]. simpl in Hbad. destruct Hbad as [?| ->]; [done|].
    by destruct (v1.ep_Port epPort =? int32 0). }
  destruct (getServiceEndpoints lbex service) as [e [err|]] eqn:Hget.
  - by apply (getEndpoints_not_found _ _ _ _ _ Hget).
  - rewrite (getEndpoints_found _ _ _ _ Hget).
    induction (v1.Subsets e) as [|subsets l IH]; [done|].
    cbn [mbind list_bind]. rewrite IH, app_nil_r.
    induction (v1.Ports subsets) as [|epPort ports IHp]; [done|].
    cbn [mbind list_bind]. by rewrite IHp, Hport.
Qed.

End ResolverMore.

(** * Further properties of getService and getServices *)

Lemma filter_none {A} (P : A → Prop) `{!∀ x, Decision (P x)} (l : list A) :
  Forall (λ x, ¬ P x) l → filter P l = [].
Proof.
  induction 1 as [|x l Hx _ IH]; [done|].
  by rewrite filter_cons, decide_False.
Qed.

Section ServiceMore.
Context `{Helpers}.
Variable lbex : lbExController.

(** The loop over the service ports, in closed form: the records of the
    ports with endpoints, those marked UDP to the right, the others to the
    left, in the order of the ports. *)
Lemma getService_ports_fold service serviceName ports tcpServices udpServices :
  fold_left (getService_port lbex service serviceName) ports
            (tcpServices, udpServices)
  = (tcpServices
       ++ ((λ sp, getService_newSvc service serviceName sp
                    (getEndpoints lbex service sp))
             <$> filter (λ sp, getEndpoints lbex service sp ≠ []
                               ∧ v1.sp_Protocol sp ≠ v1.ProtocolUDP) ports),
     udpServices
       ++ ((λ sp, getService_newSvc service serviceName sp
                    (getEndpoints lbex service sp))
             <$> filter (λ sp, getEndpoints lbex service sp ≠ []
                               ∧ v1.sp_Protocol sp = v1.ProtocolUDP) ports)).
Proof.
  revert tcpServices udpServices.
  induction ports as [|sp ports IH]; intros tcpServices udpServices.
  { simpl. by rewrite !app_nil_r. }
  cbn [fold_left]. rewrite !filter_cons. unfold getService_port at 2.
  destruct (decide (getEndpoints lbex service sp ≠ []
                    ∧ v1.sp_Protocol sp ≠ v1.ProtocolUDP)) as [[Hep Htcp]|Hno1];
    destruct (decide (getEndpoints lbex service sp ≠ []
                      ∧ v1.sp_Protocol sp = v1.ProtocolUDP)) as [[Hep' Hudp]|Hno2];
    try done.
  - destruct (getEndpoints lbex service sp) as [|a ep] eqn:Heq; [done|].
    simpl. destruct (String.eqb_spec (v1.sp_Protocol sp) v1.ProtocolUDP);
      [done|].
    rewrite IH. cbn [fmap list_fmap]. by rewrite Heq, <- app_assoc.
  - destruct (getEndpoints lbex service sp) as [|a ep] eqn:Heq; [done|].
    simpl. destruct (String.eqb_spec (v1.sp_Protocol sp) v1.ProtocolUDP);
      [|done].
    rewrite IH. cbn [fmap list_fmap]. by rewrite Heq, <- app_assoc.
  - destruct (getEndpoints lbex service sp) as [|a ep] eqn:Heq.
    + simpl. apply IH.
    + destruct (String.eqb_spec (v1.sp_Protocol sp) v1.ProtocolUDP).
      * destruct Hno2. done.
      * destruct Hno1. done.
Qed.

(** X6: for a service that is stored, validates and is in scope, the
    first list of [getService] holds one record for every port that has
    endpoints and is not marked UDP (a missing or unknown protocol counts
    as TCP), and the second list one record for every port that has
    endpoints and is marked UDP; a port without endpoints is in neither. *)
Theorem getService_partition key obj :
  GetByKey (servicesStore lbex) key = GetFound obj →
  ValidateServiceObject obj = true →
  service lbex = "" ∨ service lbex = (GetServiceName obj).1 →
  (getService lbex key).1
    ≡ₚ (λ sp, getService_newSvc obj (GetServiceName obj).1 sp
                (getEndpoints lbex obj sp))
         <$> filter (λ sp, getEndpoints lbex obj sp ≠ []
                           ∧ v1.sp_Protocol sp ≠ v1.ProtocolUDP)
                    (v1.svc_Ports obj)
  ∧ (getService lbex key).2
    ≡ₚ (λ sp, getService_newSvc obj (GetServiceName obj).1 sp
                (getEndpoints lbex obj sp))
         <$> filter (λ sp, getEndpoints lbex obj sp ≠ []
                           ∧ v1.sp_Protocol sp = v1.ProtocolUDP)
                    (v1.svc_Ports obj).
Proof.
  intros Hget Hvalid Hscope. unfold getService. rewrite Hget, Hvalid. simpl.
  destruct (GetServiceName obj) as [serviceName err]. simpl in *.
  replace (negb (String.eqb (service lbex) "")
           && negb (String.eqb (service lbex) serviceName)) with false.
  2: { destruct Hscope as [-> | ->]; [done|].
       by rewrite String.eqb_refl, andb_false_r. }
  rewrite getService_ports_fold. simpl.
  split; apply sort_Sort_Permutation.
Qed.

(** X7: [getService] returns a record only for a key whose object is
    stored, validates, is in scope when the controller is scoped to one
    service, and has a port with endpoints. *)
Theorem getService_records_candidate key :
  getService lbex key ≠ ([], []) →
  ∃ obj servicePort,
    GetByKey (servicesStore lbex) key = GetFound obj
    ∧ ValidateServiceObject obj = true
    ∧ (service lbex = "" ∨ service lbex = (GetServiceName obj).1)
    ∧ servicePort ∈ v1.svc_Ports obj
    ∧ getEndpoints lbex obj servicePort ≠ [].
Proof.
  unfold getService.
  destruct (GetByKey (servicesStore lbex) key) as [e| |obj]; [done..|].
  destruct (ValidateServiceObject obj) eqn:Hvalid; simpl; [|done].
  destruct (GetServiceName obj) as [serviceName err] eqn:Hname.
  destruct (String.eqb_spec (service lbex) "") as [Hall|Hscoped]; simpl.
  - rewrite getService_ports_fold. simpl. intros Hrec.
    destruct (decide (Exists (λ sp, getEndpoints lbex obj sp ≠ [])
                        (v1.svc_Ports obj))) as [Hex|Hno].
    + apply Exists_exists in Hex as (sp & Hsp & Hep).
      exists obj, sp. rewrite Hname. by auto.
    + destruct Hrec. rewrite !filter_none; [done|..];
        apply Forall_forall; intros sp Hsp [Hep _]; apply Hno, Exists_exists;
        eauto.
  - destruct (String.eqb_spec (service lbex) serviceName) as [Hin|Hout];
      simpl; [|done].
    rewrite getService_ports_fold. simpl. intros Hrec.
    destruct (decide (Exists (λ sp, getEndpoints lbex obj sp ≠ [])
                        (v1.svc_Ports obj))) as [Hex|Hno].
    + apply Exists_exists in Hex as (sp & Hsp & Hep).
      exists obj, sp. rewrite Hname. by auto.
    + destruct Hrec. rewrite !filter_none; [done|..];
        apply Forall_forall; intros sp Hsp [Hep _]; apply Hno, Exists_exists;
        eauto.
Qed.

(** X8: the algorithm of every record of [getService] is a supported
    algorithm or the empty string; an annotation value outside the
    supported set never reaches a record. *)
Theorem getService_algorithm_invariant key :
  Forall (λ svc, Algorithm svc ∈ nginx.SupportedAlgorithms ∨ Algorithm svc = "")
         (getService lbex key).1
  ∧ Forall (λ svc, Algorithm svc ∈ nginx.SupportedAlgorithms
                   ∨ Algorithm svc = "")
           (getService lbex key).2.
Proof.
  apply getService_Forall. intros obj servicePort _ _ _.
  rewrite getService_newSvc_Algorithm.
  destruct (GetAlgorithm obj) as [val []].
  - destruct (decide (val ∈ nginx.SupportedAlgorithms)); by auto.
  - left. by left.
Qed.

Lemma getService_newSvc_fields service serviceName servicePort ep :
  Name (getService_newSvc service serviceName servicePort ep)
  = GetServiceNameForLBRule serviceName (v1.sp_Port servicePort)
  ∧ FrontendPort (getService_newSvc service serviceName servicePort ep)
    = v1.sp_Port servicePort
  ∧ BackendPort (getService_newSvc service serviceName servicePort ep)
    = (GetServicePortTargetPortInt servicePort).1
  ∧ Host (getService_newSvc service serviceName servicePort ep)
    = (if (GetHost service).2 then (GetHost service).1 else "").
Proof.
  unfold getService_newSvc.
  destruct (GetServicePortTargetPortInt servicePort) as [backendPort ?].
  destruct (GetHost service) as [host []], (GetAlgorithm service) as [val []];
    unfold set_FrontendPort; cbn [Name FrontendPort BackendPort Host fst snd];
    try done.
  all: match goal with
       | |- context [getService_algorithm ?v ?s ?n] =>
           by destruct (getService_algorithm_frame v s n) as (-> & _ & -> & ->)
       end.
Qed.

(** X9: every record of [getService] was built for one port of the stored
    service object: its name is the rule name for that port, its frontend
    port is the port's number, its backend port is the numeric target the
    helper gives, its addresses are the port's resolved endpoints, and its
    host is the host annotation when there is one, the empty string
    otherwise. *)
Theorem getService_record_fields key svc :
  svc ∈ (getService lbex key).1 ∨ svc ∈ (getService lbex key).2 →
  ∃ obj servicePort,
    GetByKey (servicesStore lbex) key = GetFound obj
    ∧ servicePort ∈ v1.svc_Ports obj
    ∧ Name svc
      = GetServiceNameForLBRule (GetServiceName obj).1 (v1.sp_Port servicePort)
    ∧ FrontendPort svc = v1.sp_Port servicePort
    ∧ BackendPort svc = (GetServicePortTargetPortInt servicePort).1
    ∧ Ep svc = getEndpoints lbex obj servicePort
    ∧ Host svc = (if (GetHost obj).2 then (GetHost obj).1 else "").
Proof.
  intros Hin.
  destruct (getService_Forall lbex
    (λ svc, ∃ obj servicePort,
       GetByKey (servicesStore lbex) key = GetFound obj
       ∧ servicePort ∈ v1.svc_Ports obj
       ∧ Name svc
         = GetServiceNameForLBRule (GetServiceName obj).1
             (v1.sp_Port servicePort)
       ∧ FrontendPort svc = v1.sp_Port servicePort
       ∧ BackendPort svc = (GetServicePortTargetPortInt servicePort).1
       ∧ Ep svc = getEndpoints lbex obj servicePort
       ∧ Host svc = (if (GetHost obj).2 then (GetHost obj).1 else "")) key)
    as [Htcp Hudp].
  { intros obj servicePort Hget Hsp _. exists obj, servicePort.
    destruct (getService_newSvc_fields obj (GetServiceName obj).1 servicePort
                (getEndpoints lbex obj servicePort)) as (-> & -> & -> & ->).
    by rewrite getService_newSvc_Ep. }
  rewrite Forall_forall in Htcp, Hudp. destruct Hin; auto.
Qed.

(** The loop of [getServices], in closed form. *)
Lemma getServices_fold objects tcpServices udpServices :
  fold_left (getServices_obj lbex) objects (tcpServices, udpServices)
  = (tcpServices
       ++ (filter getServices_candidate objects
             ≫= λ obj, (getService lbex (getServices_key obj)).1),
     udpServices
       ++ (filter getServices_candidate objects
             ≫= λ obj, (getService lbex (getServices_key obj)).2)).
Proof.
  revert tcpServices udpServices.
  induction objects as [|obj objects IH]; intros tcpServices udpServices.
  { simpl. by rewrite !app_nil_r. }
  cbn [fold_left]. rewrite !filter_cons.
  unfold getServices_obj at 2, getServices_key.
  destruct (decide (getServices_candidate obj)) as [(Hv & Hns & Hn)|Hno].
  - rewrite Hv. simpl.
    destruct (GetServiceNamespace obj) as [namespace ?] eqn:Hns',
             (GetServiceName obj) as [serviceName ?] eqn:Hn'.
    simpl in Hns, Hn. subst. simpl.
    destruct (getService lbex _) as [svcTCPServices svcUDPServices] eqn:Hsvc.
    rewrite IH. cbn [mbind list_bind]. rewrite <- !app_assoc. reflexivity.
  - destruct (ValidateServiceObject obj) eqn:Hv; simpl; [|apply IH].
    destruct (GetServiceNamespace obj) as [namespace [e1|]] eqn:Hns;
      [apply IH|].
    destruct (GetServiceName obj) as [serviceName [e2|]] eqn:Hn; [apply IH|].
    destruct Hno. unfold getServices_candidate. by rewrite Hv, Hns, Hn.
Qed.

(** X10: both lists of [getServices] hold exactly the records that
    [getService] returns for the listed objects that validate and whose
    namespace and name the helpers give, one call per listed object under
    the key namespace/name; an object listed twice is resolved twice. *)
Theorem getServices_composition :
  (getServices lbex).1
    ≡ₚ (filter getServices_candidate (List (servicesStore lbex))
          ≫= λ obj, (getService lbex (getServices_key obj)).1)
  ∧ (getServices lbex).2
    ≡ₚ (filter getServices_candidate (List (servicesStore lbex))
          ≫= λ obj, (getService lbex (getServices_key obj)).2).
Proof.
  unfold getServices. rewrite getServices_fold. simpl.
  split; apply sort_Sort_Permutation.
Qed.

(** A property of every record [getService] returns holds of every record
    [getServices] returns. *)
Lemma getServices_Forall (P : Service → Prop) :
  (∀ key, Forall P (getService lbex key).1 ∧ Forall P (getService lbex key).2) →
  Forall P (getServices lbex).1 ∧ Forall P (getServices lbex).2.
Proof.
  intros HP. unfold getServices. rewrite getServices_fold. simpl.
  rewrite !sort_Sort_Forall.
  split; apply Forall_forall; intros svc (obj & Hsvc & _)%list_elem_of_bind;
    destruct (HP (getServices_key obj)) as [Htcp Hudp];
    rewrite Forall_forall in Htcp, Hudp; auto.
Qed.

(** X11: the records of [getServices] keep the invariants of the records
    of [getService]: at least one endpoint address, and an algorithm that
    is a supported one or the empty string. *)
Theorem getServices_invariants :
  Forall (λ svc, Ep svc ≠ []
                 ∧ (Algorithm svc ∈ nginx.SupportedAlgorithms
                    ∨ Algorithm svc = ""))
         (getServices lbex).1
  ∧ Forall (λ svc, Ep svc ≠ []
                   ∧ (Algorithm svc ∈ nginx.SupportedAlgorithms
                      ∨ Algorithm svc = ""))
           (getServices lbex).2.
Proof.
  apply getServices_Forall. intros key. apply getService_Forall.
  intros obj servicePort _ _ Hne.
  rewrite getService_newSvc_Ep, getService_newSvc_Algorithm.
  split; [done|].
  destruct (GetAlgorithm obj) as [val []].
  - destruct (decide (val ∈ nginx.SupportedAlgorithms)); by auto.
  - left. by left.
Qed.

End ServiceMore.

(** * Further properties of the sync handlers *)

(** ** The configuration file name *)

Lemma strings_Replace_slash_app (s1 s2 : string) :
  strings_Replace_slash (s1 +:+ s2)
  = strings_Replace_slash s1 +:+ strings_Replace_slash s2.
Proof. induction s1 as [|c s1 IH]; simpl; [done|]. by rewrite IH. Qed.

Lemma string_app_inv_head (s s1 s2 : string) : s +:+ s1 = s +:+ s2 → s1 = s2.
Proof. induction s as [|c s IH]; simpl; [done|]. intros [= ?]. auto. Qed.

(** X12: the file name derived from a key has the length of the key and
    no "/" in it, and a key without "/" is its own file name. *)
Theorem strings_Replace_slash_filename (key : string) :
  String.length (strings_Replace_slash key) = String.length key
  ∧ ("/"%char ∉ String.list_ascii_of_string (strings_Replace_slash key))
  ∧ (("/"%char ∉ String.list_ascii_of_string key) →
     strings_Replace_slash key = key).
Proof.
  induction key as [|c key (IHlen & IHno & IHid)]; simpl.
  { split; [done|]. split; [apply not_elem_of_nil|done]. }
  split; [by rewrite IHlen|]. split.
  - apply not_elem_of_cons. split; [|done].
    destruct (Ascii.eqb_spec c "/") as [->|Hne]; [done|congruence].
  - intros [Hc Hkey]%not_elem_of_cons.
    destruct (Ascii.eqb_spec c "/") as [->|_]; [done|]. by rewrite IHid.
Qed.

Section SyncMore.
Context `{Helpers}.
Variable lbex : lbExController.

(** X13: two different keys can share one file name: deleting the service
    [b-c] of namespace [a] asks the Configurator to delete the file named
    as the one of the service [c] of namespace [a-b]. *)
Theorem syncServices_filename_collision (a b c : string) :
  IsShuttingDown (servicesQueue lbex) = false →
  GetByKey (servicesStore lbex) (a +:+ "/" +:+ b +:+ "-" +:+ c) = GetMissing →
  (a +:+ "/" +:+ b +:+ "-" +:+ c) ≠ (a +:+ "-" +:+ b +:+ "/" +:+ c)
  ∧ syncServices lbex (a +:+ "/" +:+ b +:+ "-" +:+ c)
    = (None,
       [Cfg_DeleteConfiguration
          (strings_Replace_slash (a +:+ "-" +:+ b +:+ "/" +:+ c))
          nginx.StreamCfg]).
Proof.
  intros Hrun Hget. split.
  - by intros ?%string_app_inv_head.
  - unfold syncServices. rewrite Hrun, Hget.
    by rewrite !strings_Replace_slash_app.
Qed.

(** X14: [syncServices] makes at most one call, on the Configurator: the
    deletion of the key's file when the key is not stored, or the update
    of the key's file, with the stored object, when [getService] resolved
    a record; it never calls a node operation nor a queue. *)
Theorem syncServices_calls key :
  (syncServices lbex key).2 = []
  ∨ (GetByKey (servicesStore lbex) key = GetMissing
     ∧ (syncServices lbex key).2
       = [Cfg_DeleteConfiguration (strings_Replace_slash key) nginx.StreamCfg])
  ∨ (∃ obj,
       GetByKey (servicesStore lbex) key = GetFound obj
       ∧ getService lbex key ≠ ([], [])
       ∧ (syncServices lbex key).2
         = [Cfg_AddOrUpdateService (strings_Replace_slash key)
              {| nginx.spec_Key := key; nginx.spec_Service := obj |}]).
Proof.
  unfold syncServices.
  destruct (IsShuttingDown (servicesQueue lbex)); [by left|].
  destruct (GetByKey (servicesStore lbex) key) as [e| |obj] eqn:Hget;
    [by left|by right; left|].
  destruct (ValidateServiceObjectType obj); [by left|].
  destruct (getService lbex key) as [[|t tcpSvc] [|u udpSvc]] eqn:Hsvc; simpl;
    [by left|right; right; exists obj; by repeat split..].
Qed.

(** X15: a stored service for which [getService] resolves a record is
    handed to the Configurator under the key's file name. *)
Theorem syncServices_update key obj :
  IsShuttingDown (servicesQueue lbex) = false →
  GetByKey (servicesStore lbex) key = GetFound obj →
  ValidateServiceObjectType obj = None →
  getService lbex key ≠ ([], []) →
  syncServices lbex key
  = (None,
     [Cfg_AddOrUpdateService (strings_Replace_slash key)
        {| nginx.spec_Key := key; nginx.spec_Service := obj |}]).
Proof.
  intros Hrun Hget Htype Hsvc. unfold syncServices.
  rewrite Hrun, Hget, Htype.
  by destruct (getService lbex key) as [[|t tcpSvc] [|u udpSvc]].
Qed.

(** At a string key, a handler returns an error only when its own lookup
    of the key failed; it is then that error, and no call was made. *)
Lemma sync_key_error_from_lookup key err :
  ((syncNodes lbex key).1 = Some err →
   GetByKey (nodesStore lbex) key = GetErr err
   ∧ (syncNodes lbex key).2 = [])
  ∧ ((syncServices lbex key).1 = Some err →
     GetByKey (servicesStore lbex) key = GetErr err
     ∧ (syncServices lbex key).2 = [])
  ∧ ((syncEndpoints lbex key).1 = Some err →
     GetByKey (endpointStore lbex) key = GetErr err
     ∧ (syncEndpoints lbex key).2 = []).
Proof.
  split; [|split].
  - unfold syncNodes. destruct (IsShuttingDown (nodesQueue lbex)); [done|].
    destruct (GetByKey (nodesStore lbex) key) as [e| |obj]; simpl;
      [by intros [= ->]|done|].
    destruct (ValidateNodeObjectType obj); [done|].
    by destruct (GetNodeAddress obj) as [addrs [e|]].
  - unfold syncServices.
    destruct (IsShuttingDown (servicesQueue lbex)); [done|].
    destruct (GetByKey (servicesStore lbex) key) as [e| |obj]; simpl;
      [by intros [= ->]|done|].
    destruct (ValidateServiceObjectType obj); [done|].
    destruct (getService lbex key) as [tcpSvc udpSvc].
    by destruct ((length udpSvc =? 0)%nat && (length tcpSvc =? 0)%nat).
  - unfold syncEndpoints.
    destruct (IsShuttingDown (endpointsQueue lbex)); [done|].
    destruct (GetByKey (endpointStore lbex) key) as [e| |obj]; simpl;
      [by intros [= ->]|done|].
    destruct (getService lbex key) as [tcpSvc udpSvc].
    by destruct ((length udpSvc =? 0)%nat && (length tcpSvc =? 0)%nat).
Qed.

(** X16: a handler returns an error in two cases only, and makes no call
    in either: the queue item is not a string, and the error is the
    message of the failed type assertion; or the item is a key whose
    lookup in the handler's own store failed, and the error is the one of
    the lookup.  A failed validation, a service that resolves to nothing
    and a missing key are never reported as errors. *)
Theorem sync_error_only_from_lookup obj err :
  ((syncNodes_obj lbex obj).1 = Some err →
   (syncNodes_obj lbex obj).2 = []
   ∧ ((obj = ItemOther ∧ err = "type assertion faild for key string")
      ∨ ∃ key, obj = ItemString key
               ∧ GetByKey (nodesStore lbex) key = GetErr err))
  ∧ ((syncServices_obj lbex obj).1 = Some err →
     (syncServices_obj lbex obj).2 = []
     ∧ ((obj = ItemOther
         ∧ err = "syncServices: type assertion faild for key string")
        ∨ ∃ key, obj = ItemString key
                 ∧ GetByKey (servicesStore lbex) key = GetErr err))
  ∧ ((syncEndpoints_obj lbex obj).1 = Some err →
     (syncEndpoints_obj lbex obj).2 = []
     ∧ ((obj = ItemOther
         ∧ err = "syncEndpoints: key string type assertion failed")
        ∨ ∃ key, obj = ItemString key
                 ∧ GetByKey (endpointStore lbex) key = GetErr err)).
Proof.
  split; [|split]; intros Herr.
  - unfold syncNodes_obj in *.
    destruct (IsShuttingDown (nodesQueue lbex)); [done|].
    destruct obj as [key|].
    + destruct (sync_key_error_from_lookup key err) as (Hkey & _).
      destruct (Hkey Herr) as [Hget Hcalls]. split; [done|].
      right. by exists key.
    + injection Herr as <-. split; [done|]. by left.
  - unfold syncServices_obj in *.
    destruct (IsShuttingDown (servicesQueue lbex)); [done|].
    destruct obj as [key|].
    + destruct (sync_key_error_from_lookup key err) as (_ & Hkey & _).
      destruct (Hkey Herr) as [Hget Hcalls]. split; [done|].
      right. by exists key.
    + injection Herr as <-. split; [done|]. by left.
  - unfold syncEndpoints_obj in *.
    destruct (IsShuttingDown (endpointsQueue lbex)); [done|].
    destruct obj as [key|].
    + destruct (sync_key_error_from_lookup key err) as (_ & _ & Hkey).
      destruct (Hkey Herr) as [Hget Hcalls]. split; [done|].
      right. by exists key.
    + injection Herr as <-. split; [done|]. by left.
Qed.

(** A queue item that is not a string is answered with the error of the
    type assertion, before any lookup and without any call. *)
Lemma sync_obj_not_string :
  (IsShuttingDown (nodesQueue lbex) = false →
   syncNodes_obj lbex ItemOther
   = (Some "type assertion faild for key string", []))
  ∧ (IsShuttingDown (servicesQueue lbex) = false →
     syncServices_obj lbex ItemOther
     = (Some "syncServices: type assertion faild for key string", []))
  ∧ (IsShuttingDown (endpointsQueue lbex) = false →
     syncEndpoints_obj lbex ItemOther
     = (Some "syncEndpoints: key string type assertion failed", [])).
Proof.
  unfold syncNodes_obj, syncServices_obj, syncEndpoints_obj.
  by repeat split; intros ->.
Qed.

(** At a string item the handler is the handler at the key. *)
Lemma sync_obj_string key :
  syncNodes_obj lbex (ItemString key) = syncNodes lbex key
  ∧ syncServices_obj lbex (ItemString key) = syncServices lbex key
  ∧ syncEndpoints_obj lbex (ItemString key) = syncEndpoints lbex key.
Proof.
  unfold syncNodes_obj, syncServices_obj, syncEndpoints_obj,
    syncNodes, syncServices, syncEndpoints.
  by destruct (IsShuttingDown (nodesQueue lbex)),
    (IsShuttingDown (servicesQueue lbex)),
    (IsShuttingDown (endpointsQueue lbex)).
Qed.

(** X17: what [syncEndpoints] returns is decided by its queue and by the
    lookup of the key in the endpoint store alone; it makes no call in any
    case, so neither the service store nor the endpoints themselves change
    its outcome. *)
Theorem syncEndpoints_result key :
  syncEndpoints lbex key
  = (if IsShuttingDown (endpointsQueue lbex) then None
     else match GetByKey (endpointStore lbex) key with
          | GetErr err => Some err
          | _ => None
          end,
     []).
Proof.
  unfold syncEndpoints.
  destruct (IsShuttingDown (endpointsQueue lbex)); [done|].
  destruct (GetByKey (endpointStore lbex) key) as [e| |obj]; [done..|].
  destruct (getService lbex key) as [tcpSvc udpSvc].
  by destruct ((length udpSvc =? 0)%nat && (length tcpSvc =? 0)%nat).
Qed.

(** X18: the calls of [syncNodes] are none, or one node operation of the
    Configurator that names the key, followed by one [Enqueue] for every
    key of its answer, in the order of the answer; a deletion is asked for
    exactly when the key is not stored.  [syncNodes] never touches the
    configuration of a service. *)
Theorem syncNodes_call_shape key :
  (syncNodes lbex key).2 = []
  ∨ ∃ call,
      (syncNodes lbex key).2
      = call :: map ServicesQueue_Enqueue (affectedServices lbex call)
      ∧ ((call = Cfg_DeleteNode key
          ∧ GetByKey (nodesStore lbex) key = GetMissing)
         ∨ ∃ node obj,
             call = Cfg_AddOrUpdateNode node
             ∧ nginx.Name node = key
             ∧ nginx.Active node = IsNodeScheduleable obj
             ∧ GetByKey (nodesStore lbex) key = GetFound obj).
Proof.
  unfold syncNodes.
  destruct (IsShuttingDown (nodesQueue lbex)); [by left|].
  destruct (GetByKey (nodesStore lbex) key) as [e| |storeObj]; [by left| |].
  - right. exists (Cfg_DeleteNode key). split; [done|]. by left.
  - destruct (ValidateNodeObjectType storeObj); [by left|].
    destruct (GetNodeAddress storeObj) as [addrs [err|]]; [by left|].
    right. eexists (Cfg_AddOrUpdateNode _). split; [done|].
    right. eexists _, storeObj. done.
Qed.

(** X19: a stored object that fails validation is dropped: the handler
    makes no call and returns nil, so the queue does not retry the key. *)
Theorem sync_validation_failure_dropped key :
  (∀ obj,
     GetByKey (nodesStore lbex) key = GetFound obj →
     ValidateNodeObjectType obj ≠ None ∨ (GetNodeAddress obj).2 ≠ None →
     syncNodes lbex key = (None, []))
  ∧ (∀ obj,
       GetByKey (servicesStore lbex) key = GetFound obj →
       ValidateServiceObjectType obj ≠ None
       ∨ ValidateServiceObject obj = false →
       syncServices lbex key = (None, [])).
Proof.
  split; intros obj Hget Hbad.
  - unfold syncNodes. destruct (IsShuttingDown (nodesQueue lbex)); [done|].
    rewrite Hget. destruct (ValidateNodeObjectType obj); [done|].
    destruct (GetNodeAddress obj) as [addrs [err|]]; [done|].
    by destruct Hbad.
  - unfold syncServices.
    destruct (IsShuttingDown (servicesQueue lbex)); [done|].
    rewrite Hget. destruct (ValidateServiceObjectType obj); [done|].
    destruct Hbad as [?|Hinvalid]; [done|].
    unfold getService. by rewrite Hget, Hinvalid.
Qed.

(** X20: once its queue is shutting down a handler does nothing: no
    lookup is reported, no call is made, nil is returned. *)
Theorem sync_shutting_down key :
  (IsShuttingDown (nodesQueue lbex) = true → syncNodes lbex key = (None, []))
  ∧ (IsShuttingDown (servicesQueue lbex) = true →
     syncServices lbex key = (None, []))
  ∧ (IsShuttingDown (endpointsQueue lbex) = true →
     syncEndpoints lbex key = (None, [])).
Proof.
  repeat split; intros Hdown.
  - unfold syncNodes. by rewrite Hdown.
  - unfold syncServices. by rewrite Hdown.
  - unfold syncEndpoints. by rewrite Hdown.
Qed.

End SyncMore.

(** * The earlier revision *)

Section EarlierFacts.
Context `{earlier.Helpers}.
Variable lbex : earlier.lbExController.

(** X21: in the earlier revision [getServiceEndpoints] ranges over the
    service store and asserts every object to be an Endpoints object: it
    panics at the first listed object of another type, unless an Endpoints
    object with the service's name and namespace is listed before it. *)
Theorem earlier_getServiceEndpoints_panics service l1 obj l2 :
  List (earlier.servicesStore lbex) = l1 ++ obj :: l2 →
  Forall (λ o, ∃ e, o = earlier.ObjEndpoints e
                    ∧ ¬ (v1.svc_Name service = v1.eps_Name e
                         ∧ v1.svc_Namespace service = v1.eps_Namespace e)) l1 →
  (∀ e, obj ≠ earlier.ObjEndpoints e) →
  earlier.getServiceEndpoints lbex service = earlier.Panic
  ∧ ∀ servicePort, earlier.getEndpoints lbex service servicePort = earlier.Panic.
Proof.
  intros Hlist Hl1 Hobj.
  assert (earlier.getServiceEndpoints lbex service = earlier.Panic) as Hpanic.
  { unfold earlier.getServiceEndpoints. rewrite Hlist. clear Hlist.
    generalize v1.Endpoints_zero.
    induction Hl1 as [|o l1 (e & -> & He) _ IH]; intros endpoints0; simpl.
    - destruct obj as [s|e|]; [done| |done]. by destruct (Hobj e).
    - destruct (String.eqb_spec (v1.svc_Name service) (v1.eps_Name e));
        destruct (String.eqb_spec (v1.svc_Namespace service)
                    (v1.eps_Namespace e)); simpl.
      1: by destruct He.
      all: apply IH. }
  split; [done|]. intros servicePort.
  unfold earlier.getEndpoints. by rewrite Hpanic.
Qed.

(** With a service object listed first, every resolution panics. *)
Lemma earlier_getEndpoints_service_first obj l service servicePort :
  List (earlier.servicesStore lbex) = obj :: l →
  earlier.is_service obj →
  earlier.getEndpoints lbex service servicePort = earlier.Panic.
Proof.
  intros Hlist Hobj. unfold earlier.getEndpoints, earlier.getServiceEndpoints.
  rewrite Hlist. by destruct obj.
Qed.

Lemma earlier_getServices_port_out_of_scope service ports acc :
  ¬ (earlier.service lbex = ""
     ∨ earlier.service lbex = v1.svc_Name service) →
  earlier.foldM (earlier.getServices_port lbex service) ports acc
  = earlier.Return acc.
Proof.
  intros Hout. induction ports as [|sp ports IH]; simpl; [done|].
  unfold earlier.getServices_port at 1. destruct acc as [tcp udp].
  destruct (String.eqb_spec (earlier.service lbex) "") as [?|_];
    [destruct Hout; by left|].
  destruct (String.eqb_spec (earlier.service lbex) (v1.svc_Name service))
    as [?|_]; [destruct Hout; by right|].
  simpl. apply IH.
Qed.

Lemma earlier_getServices_port_in_scope service sp ports acc :
  (∀ servicePort,
     earlier.getEndpoints lbex service servicePort = earlier.Panic) →
  earlier.service lbex = "" ∨ earlier.service lbex = v1.svc_Name service →
  earlier.foldM (earlier.getServices_port lbex service) (sp :: ports) acc
  = earlier.Panic.
Proof.
  intros Hpanic Hin. simpl. unfold earlier.getServices_port.
  destruct acc as [tcp udp].
  replace (negb (String.eqb (earlier.service lbex) "")
           && negb (String.eqb (earlier.service lbex) (v1.svc_Name service)))
    with false.
  - by rewrite Hpanic.
  - destruct Hin as [-> | ->]; [done|].
    by rewrite String.eqb_refl, andb_false_r.
Qed.

Lemma earlier_getServices_obj_spec obj acc :
  (∀ service servicePort,
     earlier.getEndpoints lbex service servicePort = earlier.Panic) →
  earlier.is_service obj →
  (earlier.candidate lbex obj →
   earlier.getServices_obj lbex acc obj = earlier.Panic)
  ∧ (¬ earlier.candidate lbex obj →
     earlier.getServices_obj lbex acc obj = earlier.Return acc).
Proof.
  intros Hpanic Hobj. destruct obj as [service| |]; [|done..].
  unfold earlier.candidate, earlier.getServices_obj.
  destruct (String.eqb_spec (v1.svc_Type service) v1.ServiceTypeLoadBalancer)
    as [Hlb|Hlb].
  { split; [by intros (? & _)|done]. }
  destruct (earlier.IsValid service) eqn:Hvalid; simpl.
  2: { split; [by intros (_ & ? & _)|done]. }
  split.
  - intros (_ & _ & Hscope & Hports).
    destruct (v1.svc_Ports service) as [|sp ports]; [done|].
    by apply earlier_getServices_port_in_scope.
  - intros Hno.
    destruct (decide (earlier.service lbex = ""
                      ∨ earlier.service lbex = v1.svc_Name service))
      as [Hin|Hout].
    + destruct (v1.svc_Ports service) as [|sp ports] eqn:Hports; [done|].
      destruct Hno. by repeat split.
    + by apply earlier_getServices_port_out_of_scope.
Qed.

Lemma earlier_getServices_objs_spec objects acc :
  (∀ service servicePort,
     earlier.getEndpoints lbex service servicePort = earlier.Panic) →
  Forall earlier.is_service objects →
  (Exists (earlier.candidate lbex) objects →
   earlier.foldM (earlier.getServices_obj lbex) objects acc = earlier.Panic)
  ∧ (¬ Exists (earlier.candidate lbex) objects →
     earlier.foldM (earlier.getServices_obj lbex) objects acc
     = earlier.Return acc).
Proof.
  intros Hpanic Hobjs.
  induction Hobjs as [|obj objects Hobj _ [IHyes IHno]]; simpl.
  { split; [by intros ?%Exists_nil|done]. }
  destruct (earlier_getServices_obj_spec obj acc Hpanic Hobj) as [Hyes Hno].
  split.
  - intros Hex.
    destruct (decide (earlier.candidate lbex obj)) as [Hc|Hc].
    + by rewrite (Hyes Hc).
    + rewrite (Hno Hc). apply IHyes.
      apply Exists_cons in Hex as [?|?]; done.
  - intros Hnex. rewrite Hno by (intros ?; apply Hnex; by left).
    apply IHno. intros ?. apply Hnex. by right.
Qed.

(** A service store of service objects only with an eligible service in
    it: [getServices] panics. *)
Lemma earlier_getServices_panic :
  Forall earlier.is_service (List (earlier.servicesStore lbex)) →
  Exists (earlier.candidate lbex) (List (earlier.servicesStore lbex)) →
  earlier.getServices lbex = earlier.Panic.
Proof.
  intros Hobjs Hex. unfold earlier.getServices.
  destruct (List (earlier.servicesStore lbex)) as [|obj l] eqn:Hlist.
  { by apply Exists_nil in Hex. }
  destruct (earlier_getServices_objs_spec (obj :: l) ([], [])) as [Hyes _];
    [|done|].
  { intros service servicePort.
    apply (earlier_getEndpoints_service_first obj l); [done|].
    by apply Forall_cons in Hobjs as [? _]. }
  by rewrite (Hyes Hex).
Qed.

(** X22: when the service store of the earlier revision lists service
    objects only, as its informer fills it, [getServices] never returns a
    record: it panics as soon as one listed service is eligible, in scope
    and declares a port, and returns two empty lists otherwise. *)
Theorem earlier_getServices_services_only :
  Forall earlier.is_service (List (earlier.servicesStore lbex)) →
  (Exists (earlier.candidate lbex) (List (earlier.servicesStore lbex)) →
   earlier.getServices lbex = earlier.Panic)
  ∧ (¬ Exists (earlier.candidate lbex) (List (earlier.servicesStore lbex)) →
     earlier.getServices lbex = earlier.Return ([], [])).
Proof.
  intros Hobjs. unfold earlier.getServices.
  destruct (List (earlier.servicesStore lbex)) as [|obj l] eqn:Hlist.
  { split; [by intros ?%Exists_nil|done]. }
  destruct (earlier_getServices_objs_spec (obj :: l) ([], [])) as [Hyes Hno];
    [|done|].
  { intros service servicePort.
    apply (earlier_getEndpoints_service_first obj l); [done|].
    by apply Forall_cons in Hobjs as [? _]. }
  split.
  - intros Hex. by rewrite (Hyes Hex).
  - intros Hnex. by rewrite (Hno Hnex).
Qed.

(** X23: with such a store and an eligible service in it, the handlers of
    the earlier revision panic on every stored service key and on every
    stored Endpoints object, except the Endpoints objects of the namespace
    kube-system, which [syncEndpoints] skips before it resolves anything. *)
Theorem earlier_sync_panics key :
  Forall earlier.is_service (List (earlier.servicesStore lbex)) →
  Exists (earlier.candidate lbex) (List (earlier.servicesStore lbex)) →
  (IsShuttingDown (earlier.servicesQueue lbex) = false →
   ∀ obj, GetByKey (earlier.servicesStore lbex) key = GetFound obj →
          earlier.syncServices lbex key = earlier.Panic)
  ∧ (IsShuttingDown (earlier.endpointsQueue lbex) = false →
     ∀ e, GetByKey (earlier.endpointStore lbex) key
          = GetFound (earlier.ObjEndpoints e) →
          earlier.syncEndpoints lbex key
          = if String.eqb (v1.eps_Namespace e) "kube-system"
            then earlier.Return None
            else earlier.Panic).
Proof.
  intros Hobjs Hex.
  pose proof (earlier_getServices_panic Hobjs Hex) as Hpanic. split.
  - intros Hrun obj Hget. unfold earlier.syncServices.
    by rewrite Hrun, Hget, Hpanic.
  - intros Hrun e Hget. unfold earlier.syncEndpoints.
    rewrite Hrun, Hget, Hpanic.
    by destruct (String.eqb (v1.eps_Namespace e) "kube-system").
Qed.

Lemma earlier_getServices_newSvc_inv service servicePort ep :
  Ep (earlier.getServices_newSvc service servicePort ep) = ep
  ∧ (Algorithm (earlier.getServices_newSvc service servicePort ep)
       ∈ nginx.SupportedAlgorithms
     ∨ Algorithm (earlier.getServices_newSvc service servicePort ep) = "").
Proof.
  unfold earlier.getServices_newSvc.
  destruct (earlier.GetHost service) as [host []],
           (earlier.GetAlgorithm service) as [val []];
    unfold set_FrontendPort; cbn [Ep Algorithm].
  2, 4: split; [done|left; by left].
  all: match goal with
       | |- context [getService_algorithm ?v ?s ?n] =>
           destruct (getService_algorithm_frame v s n) as (_ & -> & _);
           split; [done|];
           destruct (decide (v ∈ s)) as [Hin|Hnin];
             [left; by rewrite getService_algorithm_supported
             |right; by rewrite getService_algorithm_unsupported]
       end.
Qed.

Lemma earlier_getServices_ports_Forall (P : Service → Prop) service ports
    acc acc' :
  (∀ servicePort ep, ep ≠ [] →
     P (earlier.getServices_newSvc service servicePort ep)) →
  Forall P acc.1 ∧ Forall P acc.2 →
  earlier.foldM (earlier.getServices_port lbex service) ports acc
  = earlier.Return acc' →
  Forall P acc'.1 ∧ Forall P acc'.2.
Proof.
  intros Hnew. revert acc.
  induction ports as [|sp ports IH]; intros acc Hacc; simpl.
  { by intros [= <-]. }
  destruct (earlier.getServices_port lbex service acc sp) as [acc1|] eqn:Hstep;
    [|done].
  apply IH. clear IH. unfold earlier.getServices_port in Hstep.
  destruct acc as [tcp udp]. simpl in Hacc. destruct Hacc as [Htcp Hudp].
  destruct (negb (String.eqb (earlier.service lbex) "")
            && negb (String.eqb (earlier.service lbex) (v1.svc_Name service)));
    [by injection Hstep as <-|].
  destruct (earlier.getEndpoints lbex service sp) as [ep|]; [|done].
  destruct ep as [|a ep]; simpl in Hstep; [by injection Hstep as <-|].
  destruct (String.eqb (v1.sp_Protocol sp) v1.ProtocolUDP);
    injection Hstep as <-; simpl; split; try done;
    apply Forall_app; split; try done; apply Forall_singleton, Hnew; done.
Qed.

Lemma earlier_getServices_objs_Forall (P : Service → Prop) objects acc acc' :
  (∀ service servicePort ep, ep ≠ [] →
     P (earlier.getServices_newSvc service servicePort ep)) →
  Forall P acc.1 ∧ Forall P acc.2 →
  earlier.foldM (earlier.getServices_obj lbex) objects acc
  = earlier.Return acc' →
  Forall P acc'.1 ∧ Forall P acc'.2.
Proof.
  intros Hnew. revert acc.
  induction objects as [|obj objects IH]; intros acc Hacc; simpl.
  { by intros [= <-]. }
  destruct (earlier.getServices_obj lbex acc obj) as [acc1|] eqn:Hstep;
    [|done].
  apply IH. clear IH. unfold earlier.getServices_obj in Hstep.
  destruct obj as [service| |]; [|by injection Hstep as <-..].
  destruct (String.eqb (v1.svc_Type service) v1.ServiceTypeLoadBalancer);
    [by injection Hstep as <-|].
  destruct (negb (earlier.IsValid service)); [by injection Hstep as <-|].
  eapply earlier_getServices_ports_Forall; [apply Hnew|exact Hacc|exact Hstep].
Qed.

(** X24: whatever the stores of the earlier revision hold, when
    [getServices] returns, both lists ascend by rule name, and every
    record has at least one endpoint address and an algorithm that is a
    supported one or the empty string. *)
Theorem earlier_getServices_invariants tcpServices udpServices :
  earlier.getServices lbex = earlier.Return (tcpServices, udpServices) →
  StronglySorted name_le tcpServices
  ∧ StronglySorted name_le udpServices
  ∧ Forall (λ svc, Ep svc ≠ []
                   ∧ (Algorithm svc ∈ nginx.SupportedAlgorithms
                      ∨ Algorithm svc = "")) tcpServices
  ∧ Forall (λ svc, Ep svc ≠ []
                   ∧ (Algorithm svc ∈ nginx.SupportedAlgorithms
                      ∨ Algorithm svc = "")) udpServices.
Proof.
  unfold earlier.getServices.
  destruct (earlier.foldM _ _ _) as [[tcp udp]|] eqn:Hfold; [|done].
  intros [= <- <-].
  split; [apply sort_Sort_Sorted|]. split; [apply sort_Sort_Sorted|].
  rewrite !sort_Sort_Forall.
  eapply (earlier_getServices_objs_Forall _ _ ([], []) (tcp, udp));
    [|done|exact Hfold].
  intros service servicePort ep Hne.
  destruct (earlier_getServices_newSvc_inv service servicePort ep) as [-> ?].
  done.
Qed.

End EarlierFacts.

(** * The further scenarios, evaluated *)

Section Scenarios.
Existing Instance helpers.reference.
Existing Instance scenario.earlier_helpers.

Lemma getServiceEndpoints_first_match_witness :
  getServiceEndpoints example.lbex_relisted example.web
  = (example.web_endpoints, None).
Proof.
  apply (getServiceEndpoints_first_match example.lbex_relisted example.web
           [example.db_endpoints] example.web_endpoints []).
  - reflexivity.
  - apply Forall_singleton. by intros [? _].
  - reflexivity.
  - reflexivity.
Defined.

Lemma getServiceEndpoints_not_found_witness :
  getServiceEndpoints example.lbex scenario.plain
  = (example.db_endpoints,
     Some "could not find endpoints for service: plain")
  ∧ ∀ servicePort, getEndpoints example.lbex scenario.plain servicePort = [].
Proof.
  apply (getServiceEndpoints_not_found example.lbex scenario.plain).
  constructor; [by intros [? _]|]. constructor; [by intros [? _]|].
  constructor.
Defined.

Lemma getEndpoints_numeric_witness :
  getEndpoints example.lbex example.web example.port_http
  = ["10.0.0.1:8080"; "10.0.0.2:8080"].
Proof.
  rewrite (getEndpoints_numeric example.lbex example.web example.port_http
             example.web_endpoints 8080); [reflexivity..|discriminate].
Defined.

Lemma getEndpoints_symbolic_witness :
  getEndpoints example.lbex example.web scenario.port_named
  = ["10.0.0.1:8080"; "10.0.0.2:8080"].
Proof.
  rewrite (getEndpoints_symbolic example.lbex example.web scenario.port_named
             example.web_endpoints); reflexivity.
Defined.

Lemma getEndpoints_numeric_unresolved_witness :
  getEndpoints example.lbex example.web scenario.port_zero = [].
Proof.
  apply getEndpoints_numeric_unresolved; [reflexivity|by right].
Defined.

Lemma getService_partition_witness :
  (getService example.lbex "default/web").1
    ≡ₚ [getService_newSvc example.web "web" example.port_http
          ["10.0.0.1:8080"; "10.0.0.2:8080"]]
  ∧ (getService example.lbex "default/web").2 ≡ₚ [].
Proof.
  pose proof (getService_partition example.lbex "default/web" example.web
                eq_refl eq_refl (or_introl eq_refl)) as Hpartition.
  vm_compute in Hpartition. vm_compute. exact Hpartition.
Defined.

Lemma getService_records_candidate_witness :
  ∃ obj servicePort,
    GetByKey (servicesStore example.lbex) "default/web" = GetFound obj
    ∧ ValidateServiceObject obj = true
    ∧ (service example.lbex = ""
       ∨ service example.lbex = (GetServiceName obj).1)
    ∧ servicePort ∈ v1.svc_Ports obj
    ∧ getEndpoints example.lbex obj servicePort ≠ [].
Proof.
  apply getService_records_candidate. vm_compute. discriminate.
Defined.

Lemma syncServices_filename_collision_witness :
  ("a" +:+ "/" +:+ "b" +:+ "-" +:+ "c") ≠ ("a" +:+ "-" +:+ "b" +:+ "/" +:+ "c")
  ∧ syncServices example.lbex ("a" +:+ "/" +:+ "b" +:+ "-" +:+ "c")
    = (None,
       [Cfg_DeleteConfiguration
          (strings_Replace_slash ("a" +:+ "-" +:+ "b" +:+ "/" +:+ "c"))
          nginx.StreamCfg]).
Proof.
  apply (syncServices_filename_collision example.lbex "a" "b" "c");
    reflexivity.
Defined.

Lemma strings_Replace_slash_filename_witness :
  strings_Replace_slash "kube-public" = "kube-public".
Proof.
  apply (strings_Replace_slash_filename "kube-public").
  apply (bool_decide_unpack _). vm_compute. reflexivity.
Defined.

Lemma syncServices_update_witness :
  syncServices example.lbex "default/web"
  = (None,
     [Cfg_AddOrUpdateService "default-web"
        {| nginx.spec_Key := "default/web";
           nginx.spec_Service := example.web |}]).
Proof.
  apply (syncServices_update example.lbex "default/web" example.web);
    [reflexivity..|]. vm_compute. discriminate.
Defined.

Lemma sync_error_only_from_lookup_witness :
  (syncServices_obj example.lbex_failing (ItemString "default/web")).2 = []
  ∧ ((ItemString "default/web" = ItemOther
      ∧ "store unavailable"
        = "syncServices: type assertion faild for key string")
     ∨ ∃ key, ItemString "default/web" = ItemString key
              ∧ GetByKey (servicesStore example.lbex_failing) key
                = GetErr "store unavailable").
Proof.
  apply (sync_error_only_from_lookup example.lbex_failing
           (ItemString "default/web") "store unavailable").
  reflexivity.
Defined.

Lemma sync_validation_failure_dropped_witness :
  syncServices scenario.lbex_plain "default/plain" = (None, []).
Proof.
  apply (sync_validation_failure_dropped scenario.lbex_plain "default/plain")
    with scenario.plain; [reflexivity|by right].
Defined.

Lemma sync_shutting_down_witness :
  syncNodes scenario.lbex_stopping "node-1" = (None, []).
Proof. apply sync_shutting_down. reflexivity. Defined.

Lemma getService_record_fields_witness :
  ∃ obj servicePort,
    GetByKey (servicesStore example.lbex) "default/web" = GetFound obj
    ∧ servicePort ∈ v1.svc_Ports obj
    ∧ "web-80"
      = GetServiceNameForLBRule (GetServiceName obj).1 (v1.sp_Port servicePort)
    ∧ 80 = v1.sp_Port servicePort
    ∧ 8080 = (GetServicePortTargetPortInt servicePort).1
    ∧ ["10.0.0.1:8080"; "10.0.0.2:8080"]
      = getEndpoints example.lbex obj servicePort
    ∧ "" = (if (GetHost obj).2 then (GetHost obj).1 else "").
Proof.
  apply (getService_record_fields example.lbex "default/web"
           {| Name := "web-80"; Ep := ["10.0.0.1:8080"; "10.0.0.2:8080"];
              FrontendPort := 80; BackendPort := 8080; Host := "";
              Algorithm := "" |}).
  left. vm_compute. by left.
Defined.

Lemma earlier_getServiceEndpoints_panics_witness :
  earlier.getServiceEndpoints scenario.earlier_services example.web
  = earlier.Panic
  ∧ ∀ servicePort,
      earlier.getEndpoints scenario.earlier_services example.web servicePort
      = earlier.Panic.
Proof.
  apply (earlier_getServiceEndpoints_panics scenario.earlier_services
           example.web [] (earlier.ObjService example.web) []);
    [reflexivity|constructor|done].
Defined.

Lemma earlier_getServices_services_only_witness :
  earlier.getServices scenario.earlier_services = earlier.Panic.
Proof.
  apply earlier_getServices_services_only.
  - apply Forall_singleton. exact I.
  - apply Exists_cons_hd. repeat split; [discriminate|by left|discriminate].
Defined.

Lemma earlier_sync_panics_witness :
  earlier.syncServices scenario.earlier_services "default/web" = earlier.Panic.
Proof.
  apply (earlier_sync_panics scenario.earlier_services "default/web")
    with (earlier.ObjService example.web).
  - apply Forall_singleton. exact I.
  - apply Exists_cons_hd. repeat split; [discriminate|by left|discriminate].
  - reflexivity.
  - reflexivity.
Defined.

(** With an Endpoints object listed before the service, the earlier
    revision resolves the service. *)
Example earlier_getServices_mixed :
  earlier.getServices scenario.earlier_mixed
  = earlier.Return
      ([{| Name := "web-80";
           Ep := ["10.0.0.1:8080"; "10.0.0.2:8080"];
           FrontendPort := 80;
           BackendPort := 8080;
           Host := "";
           Algorithm := "" |}],
       []).
Proof. vm_compute. reflexivity. Qed.

Lemma earlier_getServices_invariants_witness :
  Forall (λ svc, Ep svc ≠ []
                 ∧ (Algorithm svc ∈ nginx.SupportedAlgorithms
                    ∨ Algorithm svc = ""))
    [{| Name := "web-80";
        Ep := ["10.0.0.1:8080"; "10.0.0.2:8080"];
        FrontendPort := 80;
        BackendPort := 8080;
        Host := "";
        Algorithm := "" |}].
Proof.
  eapply (earlier_getServices_invariants scenario.earlier_mixed _ []).
  vm_compute. reflexivity.
Defined.

End Scenarios.
